(** * AgentReview orchestration core: a shallow embedding and its properties

    The development follows the Python package [multiagentpanic]:

    - [Schemas]        domain/schemas.py      (verdicts, findings, states)
    - [Prompts]        factory/prompts.py     (per-specialty templates)
    - [AgentFactory]   factory/agent_factory.py (specialist subgraph nodes)
    - [Orchestrator]   agents/orchestrator.py (memory, fan-out, aggregation)
    - [WorkflowQueue]  agents/workflow_queue.py (Redis-backed request queue)

    Conventions.  Python [int] is [Z]; Python [float] arithmetic on the
    decimal constants of the confidence formula is carried out in exact
    rationals [Q] (binary rounding is outside this model); [str] is
    [string]; a [dict] keyed by strings is a [gmap string _]; Redis is an
    explicit store threaded through every operation; a [try/except] is a
    [match] on a sum type whose left injection is the raised exception. *)

From Stdlib Require Import ZArith QArith Qminmax Lqa Lia.
From stdpp Require Import base option list strings gmap pretty sorting.

Open Scope Z_scope.

(** A computation that either returns or raises. *)
Inductive outcome (E A : Type) : Type :=
| Returns (a : A)
| Raises (e : E).
Arguments Returns {E A} a.
Arguments Raises {E A} e.

#[global] Instance outcome_ret {E} : MRet (outcome E) := fun A a => Returns a.
#[global] Instance outcome_bind {E} : MBind (outcome E) := fun A B k m =>
  match m with
  | Returns a => k a
  | Raises e => Raises e
  end.

(** Python's [len] as an integer. *)
Definition len {A} (l : list A) : Z := Z.of_nat (length l).

(** Python's [str(n)] for an integer. *)
Definition str_of_int (n : Z) : string := pretty n.

(* ===================================================================== *)
(** ** domain/schemas.py *)
(* ===================================================================== *)

Module Schemas.

(** [Literal["PASS", "WARN", "FAIL", "NEEDS_WORK"]] *)
Inductive Verdict := PASS | WARN | FAIL | NEEDS_WORK.

(** [Literal["high", "medium", "low"]] *)
Inductive Severity := high | medium | low.

(** [Literal["alignment", "dependencies", "testing", "security"]] *)
Inductive Specialty := alignment | dependencies | testing | security.

(** [Literal["zoekt_search", "lsp_analysis", "git_history", "test_coverage"]] *)
Inductive ContextType := zoekt_search | lsp_analysis | git_history | test_coverage.

Inductive FindingType :=
| type_error | bug | security_issue | performance | style | architecture | dependency.

#[global] Instance Verdict_eq_dec : EqDecision Verdict.
Proof. solve_decision. Defined.
#[global] Instance Severity_eq_dec : EqDecision Severity.
Proof. solve_decision. Defined.
#[global] Instance Specialty_eq_dec : EqDecision Specialty.
Proof. solve_decision. Defined.
#[global] Instance ContextType_eq_dec : EqDecision ContextType.
Proof. solve_decision. Defined.

Definition specialty_name (s : Specialty) : string :=
  match s with
  | alignment => "alignment"
  | dependencies => "dependencies"
  | testing => "testing"
  | security => "security"
  end.

Definition context_type_name (c : ContextType) : string :=
  match c with
  | zoekt_search => "zoekt_search"
  | lsp_analysis => "lsp_analysis"
  | git_history => "git_history"
  | test_coverage => "test_coverage"
  end.

(** class Finding(BaseModel), as the state schema types the elements of
    [findings]. *)
Record Finding := {
  finding_id : string;
  finding_iteration : Z;
  severity : Severity;
  finding_type : FindingType;
  file : string;
  line : Z;
  description : string;
  suggestion : option string;
  code_snippet : option string
}.

(** The payload of a gathered context item: what the context agent found,
    or the error text recorded when it raised. *)
Inductive ContextResult :=
| ContextFound (context_found : string)
| ContextError (error : string).

(** A context record as [_spawn_context_agents] builds it (class
    ContextGathering plus the [failed] and [cache_key] entries). *)
Record ContextGathering := {
  iteration : Z;
  context_type : ContextType;
  result : ContextResult;
  failed : bool;
  cost_usd : Q;
  tokens : Z;
  cache_key : string
}.

(** class ReviewAgentVerdict(BaseAgentVerdict) *)
Record ReviewAgentVerdict := {
  verdict : Verdict;
  confidence : Q;
  summary : string;
  specialty : Specialty;
  findings : list Finding;
  context_gathered : list ContextGathering;
  iterations_used : Z;
  needs_more_context : bool
}.

(** The field constraints pydantic checks when a [ReviewAgentVerdict] is
    constructed from typed arguments: [confidence] in [0, 1], [summary] of
    at least ten characters, [iterations_used >= 1]. *)
Inductive ValidationError :=
| ConfidenceOutOfRange
| SummaryTooShort
| IterationsBelowOne.

Definition Qleb_dec (a b : Q) : bool := if Qlt_le_dec b a then false else true.

Definition make_ReviewAgentVerdict (v : Verdict) (c : Q) (s : string)
    (sp : Specialty) (fs : list Finding) (cg : list ContextGathering)
    (it : Z) (more : bool) : outcome ValidationError ReviewAgentVerdict :=
  if negb (Qleb_dec 0 c && Qleb_dec c 1) then Raises ConfidenceOutOfRange
  else if (String.length s <? 10)%nat then Raises SummaryTooShort
  else if it <? 1 then Raises IterationsBelowOne
  else Returns {| verdict := v; confidence := c; summary := s; specialty := sp;
                  findings := fs; context_gathered := cg;
                  iterations_used := it; needs_more_context := more |}.

(** One entry of [context_requests_this_iteration]: a dict read with
    [req["type"]], [req.get('query', '')] and [req.get('files', [])].  The
    record is a dict on which these reads and the template lookup succeed
    (it has a "type" among the four context types and files that can be
    joined); on any other dict the loop body of [_spawn_context_agents]
    raises before its first [try], which this development does not
    model. *)
Record ContextRequest := {
  req_type : ContextType;
  req_query : option string;
  req_files : option (list string)
}.

(** class ReviewAgentState: the fields the subgraph nodes read or write. *)
Record ReviewAgentState := {
  st_specialty : Specialty;
  st_context_requests_this_iteration : list ContextRequest;
  st_context_gathered : list ContextGathering;
  st_findings : list Finding;
  st_reasoning_history : list string;
  st_current_iteration : Z;
  st_needs_more_context : bool;
  st_final_report : option ReviewAgentVerdict
}.

End Schemas.

(* ===================================================================== *)
(** ** factory/prompts.py *)
(* ===================================================================== *)

Module Prompts.
Import Schemas.

Record ReviewTemplate := {
  max_iterations : Z;
  context_agent_budget : Z
}.

(** REVIEW_AGENT_TEMPLATES *)
Definition REVIEW_AGENT_TEMPLATES (s : Specialty) : ReviewTemplate :=
  match s with
  | alignment => {| max_iterations := 3; context_agent_budget := 2 |}
  | dependencies => {| max_iterations := 2; context_agent_budget := 2 |}
  | testing => {| max_iterations := 2; context_agent_budget := 1 |}
  | security => {| max_iterations := 2; context_agent_budget := 2 |}
  end.

End Prompts.

(* ===================================================================== *)
(** ** factory/agent_factory.py *)
(* ===================================================================== *)

Module AgentFactory.
Import Schemas Prompts.

(** Python's [str(e)] for a caught exception. *)
Class ExceptionText (E : Type) := str_of_exception : E -> string.

(** *** The finalize node *)

(** What the [try] body of [_review_agent_finalize] can raise: the
    [AttributeError] of [f.get], or the report's constructor rejecting a
    field. *)
Inductive FinalizeError :=
| NoGetAttribute
| Rejected (e : ValidationError).

Definition str_of_finalize_error `{ExceptionText ValidationError} (e : FinalizeError)
    : string :=
  match e with
  | NoGetAttribute => "'Finding' object has no attribute 'get'"
  | Rejected e => str_of_exception e
  end.

(** [f.get(key)] on an element of [state.findings].  The state schema
    declares the list as [List[Finding]], so [f] is a pydantic model; it has
    no [get], and the attribute lookup raises [AttributeError]. *)
Definition finding_get (f : Finding) (key : string) : outcome FinalizeError string :=
  Raises NoGetAttribute.

(** [[f for f in findings if f.get('severity') == wanted]] *)
Fixpoint findings_of_severity (wanted : string) (fs : list Finding)
    : outcome FinalizeError (list Finding) :=
  match fs with
  | [] => Returns []
  | f :: rest =>
    found ← finding_get f "severity";
    kept ← findings_of_severity wanted rest;
    Returns (if bool_decide (found = wanted) then f :: kept else kept)
  end.

Definition high_severity_findings (st : ReviewAgentState)
    : outcome FinalizeError (list Finding) :=
  findings_of_severity "high" (st_findings st).

Definition medium_severity_findings (st : ReviewAgentState)
    : outcome FinalizeError (list Finding) :=
  findings_of_severity "medium" (st_findings st).

Definition base_confidence : Q := 8 # 10.

Definition context_bonus (st : ReviewAgentState) : Q :=
  Qmin (1 # 10) (inject_Z (len (st_context_gathered st)) * (2 # 100)).

Definition severity_penalty (highs mediums : list Finding) : Q :=
  inject_Z (len highs) * (2 # 10) + inject_Z (len mediums) * (1 # 10).

Definition iteration_penalty (st : ReviewAgentState) (template : ReviewTemplate) : Q :=
  Qmax 0 (inject_Z (st_current_iteration st - max_iterations template) * (1 # 10)).

Definition finalize_confidence (highs mediums : list Finding) (st : ReviewAgentState)
    (template : ReviewTemplate) : Q :=
  Qmax (1 # 10)
    (Qmin (95 # 100)
       (base_confidence + context_bonus st - severity_penalty highs mediums
        - iteration_penalty st template)).

Definition finalize_verdict (highs mediums : list Finding) (st : ReviewAgentState)
    : Verdict :=
  match highs with
  | _ :: _ => FAIL
  | [] =>
    match mediums with
    | _ :: _ => WARN
    | [] =>
      match st_findings st with
      | _ :: _ => NEEDS_WORK
      | [] => PASS
      end
    end
  end.

Definition finalize_summary (highs mediums : list Finding) (st : ReviewAgentState)
    (template : ReviewTemplate) : string :=
  let findings_summary :=
    str_of_int (len (st_findings st)) +:+ " findings" +:+
    match highs, mediums with
    | _ :: _, _ =>
      " (including " +:+ str_of_int (len highs) +:+ " high-severity issues)"
    | [], _ :: _ =>
      " (including " +:+ str_of_int (len mediums) +:+ " medium-severity issues)"
    | [], [] => ""
    end in
  let summary :=
    "Review completed with " +:+ findings_summary +:+ " in "
    +:+ str_of_int (st_current_iteration st) +:+ " iterations" in
  if (max_iterations template <=? st_current_iteration st)
     && bool_decide (st_findings st <> [])
  then summary +:+ ". Review may benefit from additional context or manual review."
  else summary.

(** The [try] body: the two comprehensions, then the report. *)
Definition finalize_try (st : ReviewAgentState) (template : ReviewTemplate)
    : outcome FinalizeError ReviewAgentVerdict :=
  highs ← high_severity_findings st;
  mediums ← medium_severity_findings st;
  match make_ReviewAgentVerdict (finalize_verdict highs mediums st)
          (finalize_confidence highs mediums st template)
          (finalize_summary highs mediums st template) (st_specialty st) (st_findings st)
          (st_context_gathered st) (st_current_iteration st) false with
  | Returns report => Returns report
  | Raises e => Raises (Rejected e)
  end.

(** [_review_agent_finalize]: when the [try] body raises, the [except]
    branch builds the low-confidence NEEDS_WORK report without findings,
    whose own construction may raise in turn. *)
Definition _review_agent_finalize `{ExceptionText ValidationError}
    (st : ReviewAgentState) (template : ReviewTemplate)
    : outcome ValidationError ReviewAgentVerdict :=
  match finalize_try st template with
  | Returns report => Returns report
  | Raises e =>
    make_ReviewAgentVerdict NEEDS_WORK (1 # 10)
      ("Review completed with error: " +:+ str_of_finalize_error e)
      (st_specialty st) [] (st_context_gathered st) (st_current_iteration st) false
  end.

(** *** The spawn_context node and its two caches *)

(** The Redis cache as the factory sees it: [None] when the lazy connection
    failed (in-memory cache only); otherwise the stored texts with their
    expiry times, and whether commands on the connection currently succeed. *)
Record RedisCache := {
  entries : gmap string (string * Z);
  reachable : bool
}.

(** Everything outside the state object that a resolution reads or changes:
    the Redis client, the clock (seconds), and the log of context-agent
    invocations. *)
Record World := {
  redis_client : option RedisCache;
  clock : Z;
  tool_invocations : list string
}.

(** What [await context_agent({...})] hands back: the result dict. *)
Record AgentAnswer := {
  answer_context_found : string;
  answer_cost : Q;
  answer_tokens : Z
}.

(** The external collaborators of a resolution: the context agent for a
    (type, files, query) triple, and the JSON codec for cached records. *)
Class ContextTools := {
  context_agent : ContextType -> list string -> string -> outcome string AgentAnswer;
  json_dumps : ContextGathering -> string;
  json_loads : string -> outcome string ContextGathering;
  _context_cache_ttl : Z
}.

(** [redis.get]: raises when the connection is down; an entry past its expiry
    is gone. *)
Definition redis_get (r : RedisCache) (now : Z) (key : string) : outcome string (option string) :=
  if reachable r then
    match entries r !! key with
    | Some (text, expires) => if now <? expires then Returns (Some text) else Returns None
    | None => Returns None
    end
  else Raises "Redis connection error".

(** [redis.setex] *)
Definition redis_setex (r : RedisCache) (now : Z) (key : string) (ttl : Z) (text : string)
    : outcome string RedisCache :=
  if reachable r
  then Returns {| entries := <[key := (text, now + ttl)]> (entries r);
                  reachable := reachable r |}
  else Raises "Redis connection error".

Definition make_cache_key (req : ContextRequest) : string :=
  context_type_name (req_type req) +:+ ":" +:+ default "" (req_query req)
  +:+ ":" +:+ String.concat "," (default [] (req_files req)).

(** The attributes of the state object that [_spawn_context_agents] reads;
    [context_cache] is [None] when the object has no such attribute. *)
Record SpawnState := {
  current_iteration : Z;
  context_requests_this_iteration : list ContextRequest;
  context_cache : option (gmap string ContextGathering)
}.

(** A [ReviewAgentState] has no [context_cache] attribute. *)
Definition spawn_view (st : ReviewAgentState) : SpawnState :=
  {| current_iteration := st_current_iteration st;
     context_requests_this_iteration := st_context_requests_this_iteration st;
     context_cache := None |}.

(** The loop variables carried from one request to the next. *)
Record Gathering := {
  gathered : list ContextGathering;
  cache : option (gmap string ContextGathering);
  world : World
}.

Definition log_invocation (key : string) (w : World) : World :=
  {| redis_client := redis_client w; clock := clock w;
     tool_invocations := tool_invocations w ++ [key] |}.

Definition with_redis (r : RedisCache) (w : World) : World :=
  {| redis_client := Some r; clock := clock w; tool_invocations := tool_invocations w |}.

(** The Redis lookup of a resolution: [Some record] on a hit; a miss, an
    empty text, a lookup error or an undecodable text all give [None]. *)
Definition redis_lookup `{ContextTools} (w : World) (key : string) : option ContextGathering :=
  match redis_client w with
  | None => None
  | Some r =>
    match redis_get r (clock w) key with
    | Returns (Some text) =>
      if bool_decide (text = "") then None
      else match json_loads text with
           | Returns cached_data => Some cached_data
           | Raises _ => None
           end
    | Returns None => None
    | Raises _ => None
    end
  end.

(** The part of the loop body after both caches missed: invoke the context
    agent, record the item, store it in Redis, and, when that did not raise,
    in the in-memory cache if there is one. *)
Definition invoke_and_cache `{ContextTools} (fail_fast : bool) (iter : Z)
    (req : ContextRequest) (key : string) (g : Gathering) : outcome string Gathering :=
  let w := log_invocation key (world g) in
  match context_agent (req_type req) (default [] (req_files req))
                      (default "" (req_query req)) with
  | Returns answer =>
    let gathered_item :=
      {| iteration := iter; context_type := req_type req;
         result := ContextFound (answer_context_found answer); failed := false;
         cost_usd := answer_cost answer; tokens := answer_tokens answer;
         cache_key := key |} in
    let stored :=
      match redis_client w with
      | Some r =>
        match redis_setex r (clock w) key _context_cache_ttl (json_dumps gathered_item) with
        | Returns r' => Some (with_redis r' w)
        | Raises _ => None
        end
      | None => Some w
      end in
    Returns
      match stored with
      | Some w' =>
        {| gathered := gathered g ++ [gathered_item];
           cache := (fun c => <[key := gathered_item]> c) <$> cache g;
           world := w' |}
      | None =>
        {| gathered := gathered g ++ [gathered_item]; cache := cache g; world := w |}
      end
  | Raises e =>
    if fail_fast then Raises e
    else Returns
      {| gathered := gathered g ++
           [ {| iteration := iter; context_type := req_type req;
                result := ContextError e; failed := true;
                cost_usd := 0; tokens := 0; cache_key := key |} ];
         cache := cache g; world := w |}
  end.

(** One turn of the loop over [context_requests_this_iteration]. *)
Definition resolve_request `{ContextTools} (fail_fast : bool) (iter : Z)
    (g : Gathering) (req : ContextRequest) : outcome string Gathering :=
  let key := make_cache_key req in
  match cache g ≫= (fun c => c !! key) with
  | Some hit =>
    Returns {| gathered := gathered g ++ [hit]; cache := cache g; world := world g |}
  | None =>
    match redis_lookup (world g) key with
    | Some cached_data =>
      Returns {| gathered := gathered g ++ [cached_data]; cache := cache g;
                 world := world g |}
    | None => invoke_and_cache fail_fast iter req key g
    end
  end.

Fixpoint resolve_all `{ContextTools} (fail_fast : bool) (iter : Z)
    (g : Gathering) (reqs : list ContextRequest) : outcome string Gathering :=
  match reqs with
  | [] => Returns g
  | req :: rest =>
    g' ← resolve_request fail_fast iter g req;
    resolve_all fail_fast iter g' rest
  end.

(** [_spawn_context_agents] on requests that can be read (see
    [ContextRequest]): the returned update is [context_gathered :=
    gathered], [context_requests_this_iteration := []]; the in-memory cache
    and the world are the mutated objects. *)
Definition _spawn_context_agents `{ContextTools} (fail_fast : bool)
    (state : SpawnState) (w : World) : outcome string Gathering :=
  resolve_all fail_fast (current_iteration state)
    {| gathered := []; cache := context_cache state; world := w |}
    (context_requests_this_iteration state).

(** Time passing between two resolutions. *)
Definition elapse (dt : Z) (w : World) : World :=
  {| redis_client := redis_client w; clock := clock w + dt;
     tool_invocations := tool_invocations w |}.

(** *** The plan and analyze nodes *)

(** What the reasoning backend's call produced: an exception, a reply that
    is not JSON, or a JSON object (whose keys may be absent). *)
Inductive LLMReply (A : Type) :=
| LLMRaises (error : string)
| Unparseable
| Parsed (a : A).
Arguments LLMRaises {A} error.
Arguments Unparseable {A}.
Arguments Parsed {A} a.

Record PlanJson := {
  plan_context_requests : option (list ContextRequest);
  plan_reasoning : option string
}.

Record AnalysisJson := {
  analysis_findings : option (list Finding);
  analysis_needs_more_context : option bool;
  analysis_reasoning : option string
}.

Class ReasoningBackend := {
  plan_reply : ReviewAgentState -> LLMReply PlanJson;
  analysis_reply : ReviewAgentState -> LLMReply AnalysisJson
}.

Record PlanUpdate := {
  pu_context_requests_this_iteration : list ContextRequest;
  pu_reasoning_history : list string;
  pu_current_iteration : Z
}.

Definition _review_agent_plan `{ReasoningBackend} (state : ReviewAgentState) : PlanUpdate :=
  match plan_reply state with
  | LLMRaises e =>
    {| pu_context_requests_this_iteration := [];
       pu_reasoning_history := ["Error in planning: " +:+ e];
       pu_current_iteration := st_current_iteration state + 1 |}
  | Unparseable =>
    {| pu_context_requests_this_iteration := [];
       pu_reasoning_history := ["Failed to parse response"];
       pu_current_iteration := st_current_iteration state + 1 |}
  | Parsed plan =>
    {| pu_context_requests_this_iteration := default [] (plan_context_requests plan);
       pu_reasoning_history := [default "" (plan_reasoning plan)];
       pu_current_iteration := st_current_iteration state + 1 |}
  end.

Record AnalyzeUpdate := {
  au_findings : list Finding;
  au_reasoning_history : list string;
  au_needs_more_context : bool
}.

Definition _review_agent_analyze `{ReasoningBackend} (state : ReviewAgentState) : AnalyzeUpdate :=
  match analysis_reply state with
  | LLMRaises e =>
    {| au_findings := []; au_reasoning_history := ["Analysis failed: " +:+ e];
       au_needs_more_context := false |}
  | Unparseable =>
    {| au_findings := []; au_reasoning_history := ["Failed to parse analysis"];
       au_needs_more_context := false |}
  | Parsed result =>
    {| au_findings := default [] (analysis_findings result);
       au_reasoning_history := [default "" (analysis_reasoning result)];
       au_needs_more_context := default false (analysis_needs_more_context result) |}
  end.

(** *** The compiled subgraph of [create_review_agent_subgraph] *)

Inductive Node := plan | spawn_context | analyze | finalize | END.

#[global] Instance Node_eq_dec : EqDecision Node.
Proof. solve_decision. Defined.

(** The conditional edge out of [analyze]. *)
Definition after_analyze (template : ReviewTemplate) (s : ReviewAgentState) : Node :=
  if st_needs_more_context s && (st_current_iteration s <? max_iterations template)
  then spawn_context else finalize.

(** Merging a node's partial update into the state: [context_gathered],
    [findings] and [reasoning_history] are declared with [operator.add] and
    accumulate; every other field is replaced. *)
Definition merge_plan (s : ReviewAgentState) (u : PlanUpdate) : ReviewAgentState :=
  {| st_specialty := st_specialty s;
     st_context_requests_this_iteration := pu_context_requests_this_iteration u;
     st_context_gathered := st_context_gathered s;
     st_findings := st_findings s;
     st_reasoning_history := st_reasoning_history s ++ pu_reasoning_history u;
     st_current_iteration := pu_current_iteration u;
     st_needs_more_context := st_needs_more_context s;
     st_final_report := st_final_report s |}.

Definition merge_spawn (s : ReviewAgentState) (g : Gathering) : ReviewAgentState :=
  {| st_specialty := st_specialty s;
     st_context_requests_this_iteration := [];
     st_context_gathered := st_context_gathered s ++ gathered g;
     st_findings := st_findings s;
     st_reasoning_history := st_reasoning_history s;
     st_current_iteration := st_current_iteration s;
     st_needs_more_context := st_needs_more_context s;
     st_final_report := st_final_report s |}.

Definition merge_analyze (s : ReviewAgentState) (u : AnalyzeUpdate) : ReviewAgentState :=
  {| st_specialty := st_specialty s;
     st_context_requests_this_iteration := st_context_requests_this_iteration s;
     st_context_gathered := st_context_gathered s;
     st_findings := st_findings s ++ au_findings u;
     st_reasoning_history := st_reasoning_history s ++ au_reasoning_history u;
     st_current_iteration := st_current_iteration s;
     st_needs_more_context := au_needs_more_context u;
     st_final_report := st_final_report s |}.

Definition merge_finalize (s : ReviewAgentState) (r : ReviewAgentVerdict) : ReviewAgentState :=
  {| st_specialty := st_specialty s;
     st_context_requests_this_iteration := st_context_requests_this_iteration s;
     st_context_gathered := st_context_gathered s;
     st_findings := st_findings s;
     st_reasoning_history := st_reasoning_history s;
     st_current_iteration := st_current_iteration s;
     st_needs_more_context := st_needs_more_context s;
     st_final_report := Some r |}.

(** A point of a subgraph run: the node about to execute, the state, and the
    world outside it. *)
Record Run := {
  node : Node;
  state : ReviewAgentState;
  outside : World
}.

Definition step `{ReasoningBackend} `{ContextTools} `{ExceptionText ValidationError}
    (template : ReviewTemplate) (r : Run) : outcome string Run :=
  match node r with
  | plan =>
    Returns {| node := spawn_context;
               state := merge_plan (state r) (_review_agent_plan (state r));
               outside := outside r |}
  | spawn_context =>
    g ← _spawn_context_agents false (spawn_view (state r)) (outside r);
    Returns {| node := analyze; state := merge_spawn (state r) g; outside := world g |}
  | analyze =>
    let s := merge_analyze (state r) (_review_agent_analyze (state r)) in
    Returns {| node := after_analyze template s; state := s; outside := outside r |}
  | finalize =>
    match _review_agent_finalize (state r) template with
    | Returns report =>
      Returns {| node := END; state := merge_finalize (state r) report;
                 outside := outside r |}
    | Raises e => Raises (str_of_exception e)
    end
  | END => Returns r
  end.

(** Running at most [limit] nodes (the graph's recursion limit) from [r];
    the result lists the nodes executed, in order, with the point reached or
    the exception that ended the run. *)
Fixpoint execute `{ReasoningBackend} `{ContextTools} `{ExceptionText ValidationError}
    (template : ReviewTemplate) (limit : nat) (r : Run) : list Node * outcome string Run :=
  match limit with
  | O => ([], Returns r)
  | S limit' =>
    if decide (node r = END) then ([], Returns r)
    else match step template r with
         | Returns r' =>
           let '(visited, final) := execute template limit' r' in
           (node r :: visited, final)
         | Raises e => ([node r], Raises e)
         end
  end.


(** The state [_run_single_agent] hands to the subgraph. *)
Definition initial_agent_state (agent : Specialty) : ReviewAgentState :=
  {| st_specialty := agent;
     st_context_requests_this_iteration := [];
     st_context_gathered := [];
     st_findings := [];
     st_reasoning_history := [];
     st_current_iteration := 1;
     st_needs_more_context := false;
     st_final_report := None |}.

Definition start (agent : Specialty) (w : World) : Run :=
  {| node := plan; state := initial_agent_state agent; outside := w |}.

End AgentFactory.

(* ===================================================================== *)
(** ** agents/orchestrator.py *)
(* ===================================================================== *)

Module Orchestrator.
Import Schemas Prompts.

(** Values of the untyped [Dict[str, Any]] memory that the orchestrator
    itself writes. *)
Inductive PyValue :=
| PyNone
| PyStr (s : string)
| PyList (items : list string)
| PyDict (entries : list (string * string)).

(** A row of the [pr_reviews] query. *)
Record SimilarPR := {
  pr_number : Z;
  pr_title : string;
  pr_complexity : string;
  pr_summary : string
}.

(** One entry of [orchestration_metadata]. *)
Record AgentMetadata := {
  meta_status : string;
  meta_duration_ms : Q;
  meta_error : option string
}.

(** class PRReviewState: the fields the orchestrator nodes read or write. *)
Record PRReviewState := {
  changed_files : list string;
  repo_memory : gmap string PyValue;
  similar_prs : list SimilarPR;
  repo_conventions : list string;
  orchestrator_plan : option (list Specialty);
  review_agent_reports : list ReviewAgentVerdict;
  orchestration_metadata : gmap string AgentMetadata
}.

(** *** load_memory *)

(** How the database behaves for [_find_similar_prs]: [asyncpg.connect]
    raises, or gives a connection with the outcome of [conn.fetch] and of
    [conn.close]. *)
Inductive DbSession :=
| ConnectRaises (error : string)
| Connected (fetch : outcome string (list SimilarPR)) (close : outcome string ()).

(** What [os.path.exists] / [open] / [read] answer for one path. *)
Inductive FileProbe :=
| Missing
| Readable (content : string)
| Unreadable (error : string).

(** The settings and the outside world [load_memory] depends on: whether
    learning is enabled, whether the asyncpg driver was importable, the
    configured URL, the database and the file system. *)
Class Environment := {
  learning_enabled : bool;
  asyncpg_available : bool;
  postgres_url : option string;
  db_session : DbSession;
  probe_file : string -> FileProbe
}.

(** [try: ... finally: await conn.close()]: the body's outcome, unless the
    cleanup raises. *)
Definition try_finally {E A} (body : outcome E A) (cleanup : outcome E ()) : outcome E A :=
  match cleanup with
  | Returns _ => body
  | Raises e => Raises e
  end.

(** [try: ... except Exception: return default] *)
Definition try_except {E A} (body : outcome E A) (handler : E -> A) : A :=
  match body with
  | Returns a => a
  | Raises e => handler e
  end.

(** [_find_similar_prs].  The query's arguments (repository name taken from
    the PR URL, PR number, changed files) are built from strings inside the
    [try] and do not decide which path is taken; the rows are those the
    session's fetch returns. *)
Definition _find_similar_prs `{Environment} (state : PRReviewState)
    : outcome string (list SimilarPR) :=
  if negb asyncpg_available || bool_decide (postgres_url = None)
     || bool_decide (postgres_url = Some "")
  then Returns []
  else
    Returns (try_except
      (match db_session with
       | ConnectRaises e => Raises e
       | Connected fetch close => try_finally fetch close
       end)
      (fun _ => [])).

Definition default_conventions : list string :=
  [ "Use type hints for all public functions";
    "Include docstrings for public APIs";
    "Follow existing code style patterns" ].

Definition potential_files : list string :=
  [ ".github/CONTRIBUTING.md"; "AGENTS.md"; "CONTRIBUTING.md" ].

(** One turn of the loop over [potential_files]; a failing read is logged
    and the loop goes on. *)
Definition load_convention_file `{Environment} (conventions : list string)
    (file_path : string) : list string :=
  match probe_file file_path with
  | Missing => conventions
  | Readable text =>
    let content := String.substring 0 1024 text in
    conventions ++
      ["Derived from " +:+ file_path +:+ ": " +:+ String.substring 0 100 content +:+ "..."]
  | Unreadable _ => conventions
  end.

Definition _load_repo_conventions `{Environment} (state : PRReviewState)
    : outcome string (list string) :=
  Returns (foldl load_convention_file default_conventions potential_files).

(** The partial update [load_memory] returns: a key is present only when the
    node assigned it. *)
Record MemoryUpdates := {
  upd_repo_memory : option (gmap string PyValue);
  upd_similar_prs : option (list SimilarPR);
  upd_repo_conventions : option (list string)
}.

Definition initial_repo_memory : gmap string PyValue :=
  {[ "common_issues" := PyList [];
     "review_patterns" := PyDict [];
     "false_positive_patterns" := PyList [];
     "last_updated" := PyNone ]}.

Definition load_memory `{Environment} (state : PRReviewState)
    : outcome string MemoryUpdates :=
  let u_memory :=
    if bool_decide (repo_memory state = ∅) then Some initial_repo_memory else None in
  u_similar ←
    (match similar_prs state with
     | [] =>
       if learning_enabled
       then found ← _find_similar_prs state; Returns (Some found)
       else Returns (Some [])
     | _ :: _ => Returns None
     end);
  u_conventions ←
    (match repo_conventions state with
     | [] => loaded ← _load_repo_conventions state; Returns (Some loaded)
     | _ :: _ => Returns None
     end);
  Returns {| upd_repo_memory := u_memory;
             upd_similar_prs := u_similar;
             upd_repo_conventions := u_conventions |}.

(** How the graph merges the partial update into the state: these three
    fields carry no reducer, so a key that is present replaces the field. *)
Definition merge_memory (state : PRReviewState) (u : MemoryUpdates) : PRReviewState :=
  {| changed_files := changed_files state;
     repo_memory := default (repo_memory state) (upd_repo_memory u);
     similar_prs := default (similar_prs state) (upd_similar_prs u);
     repo_conventions := default (repo_conventions state) (upd_repo_conventions u);
     orchestrator_plan := orchestrator_plan state;
     review_agent_reports := review_agent_reports state;
     orchestration_metadata := orchestration_metadata state |}.

(** *** plan_agents *)

Definition plan_agents (state : PRReviewState) : list Specialty :=
  [alignment; testing; security].

(** *** _run_single_agent and run_review_agents *)

(** What [subgraph.ainvoke] handed back under [final_report]: already a
    [ReviewAgentVerdict], or raw data for [model_validate]. *)
Inductive FinalReportData :=
| VerdictObject (v : ReviewAgentVerdict)
| RawReport (raw : string).

Inductive SubgraphResult :=
| StateObject (final_report : option FinalReportData)
| DictResult (final_report : option (option FinalReportData))
| OtherResult.

(** How the guarded block of [_run_single_agent] ends: the subgraph
    returns, [asyncio.timeout(300)] fires, or some other exception
    escapes.  (The observability hooks are optional and left out.) *)
Inductive AgentRun :=
| Completed (result : SubgraphResult)
| TimedOut
| Failed (error : string).

Class AgentRuntime := {
  run_subgraph : Specialty -> PRReviewState -> AgentRun;
  model_validate : string -> outcome string ReviewAgentVerdict;
  duration : Specialty -> Q
}.

Record AgentResult := {
  agent_name : Specialty;
  report : ReviewAgentVerdict;
  agent_duration : Q;
  status : string;
  error : option string
}.

Definition degraded_report (v : Verdict) (c : Q) (text : string) (agent : Specialty)
    : ReviewAgentVerdict :=
  {| verdict := v; confidence := c; summary := text; specialty := agent;
     findings := []; context_gathered := []; iterations_used := 1;
     needs_more_context := false |}.

Definition report_of_result `{AgentRuntime} (agent : Specialty) (result : SubgraphResult)
    : ReviewAgentVerdict :=
  let final_report_data :=
    match result with
    | StateObject fr => fr
    | DictResult (Some fr) => fr
    | DictResult None => None
    | OtherResult => None
    end in
  match final_report_data with
  | Some (VerdictObject v) => v
  | Some (RawReport raw) =>
    match model_validate raw with
    | Returns v => v
    | Raises parse_error =>
      degraded_report FAIL (1 # 10)
        ("Error parsing report for " +:+ specialty_name agent +:+ ": " +:+ parse_error)
        agent
    end
  | None =>
    degraded_report PASS (5 # 10)
      ("Review completed for " +:+ specialty_name agent +:+ " agent (no report)") agent
  end.

Definition _run_single_agent `{AgentRuntime} (agent : Specialty) (state : PRReviewState)
    : AgentResult :=
  match run_subgraph agent state with
  | Completed result =>
    {| agent_name := agent; report := report_of_result agent result;
       agent_duration := duration agent; status := "success"; error := None |}
  | TimedOut =>
    {| agent_name := agent;
       report := degraded_report WARN (1 # 10)
         ("Agent " +:+ specialty_name agent +:+ " timed out during execution") agent;
       agent_duration := duration agent; status := "error"; error := Some "Timeout" |}
  | Failed e =>
    {| agent_name := agent;
       report := degraded_report NEEDS_WORK (1 # 10)
         ("Agent " +:+ specialty_name agent +:+ " failed: " +:+ e) agent;
       agent_duration := duration agent; status := "error"; error := Some e |}
  end.

Record ReviewUpdates := {
  upd_review_agent_reports : list ReviewAgentVerdict;
  upd_agent_execution_times : gmap string Q;
  upd_orchestration_metadata : gmap string AgentMetadata
}.

(** The loop over the gathered results. *)
Definition process_result (acc : ReviewUpdates) (r : AgentResult) : ReviewUpdates :=
  {| upd_review_agent_reports := upd_review_agent_reports acc ++ [report r];
     upd_agent_execution_times :=
       <[specialty_name (agent_name r) := agent_duration r]>
         (upd_agent_execution_times acc);
     upd_orchestration_metadata :=
       <["agent_" +:+ specialty_name (agent_name r) :=
           {| meta_status := status r;
              meta_duration_ms := agent_duration r * 1000;
              meta_error := error r |}]>
         (upd_orchestration_metadata acc) |}.

Definition run_review_agents `{AgentRuntime} (state : PRReviewState) : ReviewUpdates :=
  let agents_to_run := default [] (orchestrator_plan state) in
  let results := map (fun agent => _run_single_agent agent state) agents_to_run in
  foldl process_result
    {| upd_review_agent_reports := []; upd_agent_execution_times := ∅;
       upd_orchestration_metadata := orchestration_metadata state |}
    results.

(** *** collect *)

Fixpoint any_needs_work (reports : list ReviewAgentVerdict) : string :=
  match reports with
  | [] => "PASS"
  | r :: rest =>
    if bool_decide (verdict r ∈ [FAIL; NEEDS_WORK; WARN]) then "NEEDS_WORK"
    else any_needs_work rest
  end.

Definition _determine_overall_verdict (reports : list ReviewAgentVerdict) : string :=
  match reports with
  | [] => "NO_REVIEW"
  | _ :: _ => any_needs_work reports
  end.

End Orchestrator.

(* ===================================================================== *)
(** ** agents/workflow_queue.py *)
(* ===================================================================== *)

Module WorkflowQueue.

(** [Literal["run_ci", "get_test_results", "run_specific_test"]] *)
Inductive RequestType := run_ci | get_test_results | run_specific_test.

(** [Literal["pending", "in_progress", "completed", "failed"]] *)
Inductive Status := pending | in_progress | completed | failed.

#[global] Instance RequestType_eq_dec : EqDecision RequestType.
Proof. solve_decision. Defined.
#[global] Instance Status_eq_dec : EqDecision Status.
Proof. solve_decision. Defined.

Definition request_type_name (t : RequestType) : string :=
  match t with
  | run_ci => "run_ci"
  | get_test_results => "get_test_results"
  | run_specific_test => "run_specific_test"
  end.

Definition status_name (s : Status) : string :=
  match s with
  | pending => "pending"
  | in_progress => "in_progress"
  | completed => "completed"
  | failed => "failed"
  end.

Definition request_type_of_name (s : string) : option RequestType :=
  if bool_decide (s = "run_ci") then Some run_ci
  else if bool_decide (s = "get_test_results") then Some get_test_results
  else if bool_decide (s = "run_specific_test") then Some run_specific_test
  else None.

Definition status_of_name (s : string) : option Status :=
  if bool_decide (s = "pending") then Some pending
  else if bool_decide (s = "in_progress") then Some in_progress
  else if bool_decide (s = "completed") then Some completed
  else if bool_decide (s = "failed") then Some failed
  else None.

(** A JSON scalar, and a [Dict[str, Any]] in insertion order. *)
Inductive Json := JNull | JBool (b : bool) | JInt (n : Z) | JStr (s : string).
Definition Params := list (string * Json).

(** A [datetime], in seconds. *)
Definition Timestamp := Z.

(** class WorkflowRequest *)
Record WorkflowRequest := {
  request_id : string;
  requesting_agent : string;
  request_type : RequestType;
  params : Params;
  timestamp : Timestamp;
  status : Status;
  result : option Params
}.

(** The exceptions that the queue's own code can meet. *)
Inductive Exception :=
| KeyError (key : string)
| JSONDecodeError
| ValueError
| AttributeError
| ValidationError
| DataError.

(** Library functions and settings the queue relies on. *)
Class Library := {
  (** [hashlib.md5(text.encode()).hexdigest()] *)
  md5_hexdigest : string -> string;
  (** [json.dumps(value, sort_keys=...)] *)
  json_dumps : bool -> Params -> string;
  (** [json.loads(text)]; [None] when it raises [JSONDecodeError] *)
  json_loads : string -> option Params;
  (** [datetime.isoformat], and [datetime.fromisoformat], [None] when it
      raises [ValueError] *)
  isoformat : Timestamp -> string;
  fromisoformat : string -> option Timestamp;
  (** [get_settings().workflow.queue_processing_timeout] *)
  _timeout : Z
}.

(** *** The Redis store *)

(** A value of a mapping handed to the client: text, or Python's [None] as
    [enqueue] passes it for ['result']. *)
Inductive FieldValue := Text (s : string) | PyNone.

#[global] Instance FieldValue_eq_dec : EqDecision FieldValue.
Proof. solve_decision. Defined.

(** The hash records by key, the list ["workflow:queue"] (head = left end),
    and the time-to-live set on each key, in seconds.  (The fields of a
    record have the type of the mappings; no call of the client puts a
    [PyNone] there.) *)
Record Redis := {
  hashes : gmap string (gmap string FieldValue);
  queue : list string;
  ttl : gmap string Z
}.

(** HGETALL: the empty mapping for a missing key. *)
Definition hgetall (s : Redis) (key : string) : gmap string FieldValue :=
  default ∅ (hashes s !! key).

(** HSET with a mapping: the given fields overwrite, the others stay. *)
Definition hset (s : Redis) (key : string) (mapping : gmap string FieldValue) : Redis :=
  {| hashes := <[key := mapping ∪ hgetall s key]> (hashes s);
     queue := queue s; ttl := ttl s |}.

(** [await redis_client.hset(key, mapping=...)].  The client encodes every
    field and value before the command is sent; bytes, strings and numbers
    are encodable, [None] is not: the call raises [DataError] and the server
    is not reached. *)
Definition encodable (mapping : gmap string FieldValue) : bool :=
  bool_decide (map_Forall (fun _ value => value <> PyNone) mapping).

Definition client_hset (s : Redis) (key : string) (mapping : gmap string FieldValue)
    : outcome Exception Redis :=
  if encodable mapping then Returns (hset s key mapping) else Raises DataError.

(** LPUSH onto the queue list. *)
Definition lpush (s : Redis) (value : string) : Redis :=
  {| hashes := hashes s; queue := value :: queue s; ttl := ttl s |}.

(** The right end of a list and what is left of it. *)
Fixpoint pop_right (l : list string) : option (string * list string) :=
  match l with
  | [] => None
  | x :: rest =>
    match pop_right rest with
    | None => Some (x, [])
    | Some (y, rest') => Some (y, x :: rest')
    end
  end.

(** RPOP from the queue list. *)
Definition rpop (s : Redis) : option string * Redis :=
  match pop_right (queue s) with
  | None => (None, s)
  | Some (value, rest) => (Some value, {| hashes := hashes s; queue := rest; ttl := ttl s |})
  end.

(** EXPIRE: sets the time-to-live of an existing key. *)
Definition expire (s : Redis) (key : string) (seconds : Z) : Redis :=
  match hashes s !! key with
  | Some _ => {| hashes := hashes s; queue := queue s; ttl := <[key := seconds]> (ttl s) |}
  | None => s
  end.


(** *** class WorkflowQueue *)

Definition _request_prefix : string := "workflow:request:".

Definition _generate_request_id `{Library} (request : WorkflowRequest) : string :=
  let dedup_key :=
    request_type_name (request_type request) +:+ ":" +:+ json_dumps true (params request) in
  md5_hexdigest dedup_key.

Definition _get_request_key (request_id : string) : string :=
  _request_prefix +:+ request_id.

(** The record is there and its status is pending or in_progress. *)
Definition is_active (existing_request : gmap string FieldValue) : bool :=
  bool_decide (existing_request <> ∅)
  && bool_decide (existing_request !! "status" ∈ [Some (Text "pending"); Some (Text "in_progress")]).

(** The dict [request_data] that [enqueue] builds and passes as [mapping]. *)
Definition request_data `{Library} (request_id : string) (request : WorkflowRequest)
    : gmap string FieldValue :=
  list_to_map
    [ ("request_id", Text request_id);
      ("requesting_agent", Text (requesting_agent request));
      ("request_type", Text (request_type_name (request_type request)));
      ("params", Text (json_dumps false (params request)));
      ("timestamp", Text (isoformat (timestamp request)));
      ("status", Text "pending");
      ("result", PyNone) ].

(** [enqueue]: the awaited calls in order; an exception ends the call and
    leaves the store as the commands sent so far made it. *)
Definition enqueue `{Library} (s : Redis) (request : WorkflowRequest)
    : outcome Exception string * Redis :=
  let request_id := _generate_request_id request in
  let request_key := _get_request_key request_id in
  let existing_request := hgetall s request_key in
  if is_active existing_request then (Returns request_id, s)
  else
    match client_hset s request_key (request_data request_id request) with
    | Raises e => (Raises e, s)
    | Returns s1 =>
      let s2 := lpush s1 request_id in
      let s3 := expire s2 request_key (_timeout * 2) in
      (Returns request_id, s3)
    end.

(** [request_data[b'field'].decode()] *)
Definition field (data : gmap string FieldValue) (name : string) : outcome Exception string :=
  match data !! name with
  | None => Raises (KeyError name)
  | Some (Text s) => Returns s
  | Some PyNone => Raises AttributeError
  end.

(** The [WorkflowRequest(...)] call of [get_next_request]: the arguments are
    evaluated in order, then the model validates the two literals. *)
Definition parse_request `{Library} (data : gmap string FieldValue)
    : outcome Exception WorkflowRequest :=
  id ← field data "request_id";
  agent ← field data "requesting_agent";
  type_text ← field data "request_type";
  params_text ← field data "params";
  ps ← from_option Returns (Raises JSONDecodeError) (json_loads params_text);
  timestamp_text ← field data "timestamp";
  ts ← from_option Returns (Raises ValueError) (fromisoformat timestamp_text);
  status_text ← field data "status";
  match request_type_of_name type_text, status_of_name status_text with
  | Some t, Some st =>
    Returns {| request_id := id; requesting_agent := agent; request_type := t;
               params := ps; timestamp := ts; status := st; result := None |}
  | _, _ => Raises ValidationError
  end.

Definition get_next_request `{Library} (s : Redis)
    : outcome Exception (option WorkflowRequest) * Redis :=
  match rpop s with
  | (None, s') => (Returns None, s')
  | (Some request_id, s') =>
    if bool_decide (request_id = "") then (Returns None, s')
    else
      let data := hgetall s' (_get_request_key request_id) in
      if bool_decide (data = ∅) then (Returns None, s')
      else
        match parse_request data with
        | Returns request => (Returns (Some request), s')
        | Raises (KeyError _) => (Returns None, s')
        | Raises JSONDecodeError => (Returns None, s')
        | Raises e => (Raises e, s')
        end
  end.

(** The mappings of the three lifecycle calls hold strings only, which the
    client encodes: their HSET always reaches the server. *)
Definition mark_in_progress (s : Redis) (request_id : string) : Redis :=
  hset s (_get_request_key request_id) {[ "status" := Text "in_progress" ]}.

Definition mark_completed `{Library} (s : Redis) (request_id : string)
    (result : Params) (now : Timestamp) : Redis :=
  hset s (_get_request_key request_id)
    (list_to_map [ ("status", Text "completed");
                   ("result", Text (json_dumps false result));
                   ("completed_at", Text (isoformat now)) ]).

Definition mark_failed `{Library} (s : Redis) (request_id : string)
    (error : string) (now : Timestamp) : Redis :=
  hset s (_get_request_key request_id)
    (list_to_map [ ("status", Text "failed");
                   ("result", Text (json_dumps false [("error", JStr error)]));
                   ("failed_at", Text (isoformat now)) ]).

(** [get_request_status]: what a waiter observes. *)
Definition get_request_status (s : Redis) (request_id : string)
    : outcome Exception (option string) :=
  let data := hgetall s (_get_request_key request_id) in
  if bool_decide (data = ∅) then Returns None
  else
    match data !! "status" with
    | None => Returns (Some "pending")
    | Some (Text st) => Returns (Some st)
    | Some PyNone => Raises AttributeError
    end.

(** *** Sequences of lifecycle calls on one request *)

Inductive MarkCall :=
| MarkInProgress
| MarkCompleted (result : Params) (now : Timestamp)
| MarkFailed (error : string) (now : Timestamp).

(** The status each call writes. *)
Definition target (c : MarkCall) : Status :=
  match c with
  | MarkInProgress => in_progress
  | MarkCompleted _ _ => completed
  | MarkFailed _ _ => failed
  end.

Definition apply_mark `{Library} (request_id : string) (s : Redis) (c : MarkCall) : Redis :=
  match c with
  | MarkInProgress => mark_in_progress s request_id
  | MarkCompleted result now => mark_completed s request_id result now
  | MarkFailed error now => mark_failed s request_id error now
  end.

(** The status observed before the first call and after each call. *)
Fixpoint status_trace `{Library} (request_id : string) (s : Redis) (calls : list MarkCall)
    : list (outcome Exception (option string)) :=
  get_request_status s request_id ::
  match calls with
  | [] => []
  | c :: rest => status_trace request_id (apply_mark request_id s c) rest
  end.


End WorkflowQueue.

(* ===================================================================== *)
(** ** Vocabulary of the statements: the specification's wording *)
(* ===================================================================== *)

Module SpecWords.
Import Schemas Prompts.

(** The confidence formula as the specification words it. *)
Definition clamp (lo hi x : Q) : Q := Qmax lo (Qmin hi x).

Definition count_severity (s : Severity) (fs : list Finding) : Z :=
  len (filter (fun f => severity f = s) fs).

Definition confidence_formula (records highs mediums iteration maximum : Z) : Q :=
  clamp (1 # 10) (95 # 100)
    ((8 # 10)
     + Qmin (1 # 10) ((2 # 100) * inject_Z records)
     - (2 # 10) * inject_Z highs
     - (1 # 10) * inject_Z mediums
     - (1 # 10) * inject_Z (Z.max 0 (iteration - maximum))).

Definition spec_confidence (st : ReviewAgentState) (template : ReviewTemplate) : Q :=
  confidence_formula (len (st_context_gathered st))
    (count_severity high (st_findings st)) (count_severity medium (st_findings st))
    (st_current_iteration st) (max_iterations template).

(** The verdict rule as the specification words it. *)
Definition spec_verdict (fs : list Finding) : Verdict :=
  if bool_decide (Exists (fun f => severity f = high) fs) then FAIL
  else if bool_decide (Exists (fun f => severity f = medium) fs) then WARN
  else if bool_decide (fs <> []) then NEEDS_WORK
  else PASS.

(** Aggregation: a verdict that makes the overall outcome NEEDS_WORK. *)
Definition needs_attention (r : ReviewAgentVerdict) : Prop :=
  verdict r = FAIL \/ verdict r = NEEDS_WORK \/ verdict r = WARN.

(** The request lifecycle pending -> in_progress -> {completed | failed}:
    a status may stay or move forward, never back, and the two terminal
    statuses are alternatives. *)
Definition rank (st : WorkflowQueue.Status) : nat :=
  match st with
  | WorkflowQueue.pending => 0
  | WorkflowQueue.in_progress => 1
  | WorkflowQueue.completed => 2
  | WorkflowQueue.failed => 2
  end.

Definition forward (a b : WorkflowQueue.Status) : bool :=
  bool_decide (a = b) || bool_decide (rank a < rank b)%nat.

Fixpoint lifecycle_monotone (trace : list WorkflowQueue.Status) : bool :=
  match trace with
  | a :: (b :: _) as rest => forward a b && lifecycle_monotone rest
  | _ => true
  end.

(** The status a waiter reads off one observation, if any. *)
Definition observed (o : outcome WorkflowQueue.Exception (option string))
    : option WorkflowQueue.Status :=
  match o with
  | Returns (Some st) => WorkflowQueue.status_of_name st
  | _ => None
  end.

Section OrchestratorWords.
Import Orchestrator.
Context `{!Environment}.

(** The similar-PR lookup fails: connecting, fetching or closing raises. *)
Definition similar_lookup_fails : Prop :=
  match db_session with
  | ConnectRaises _ => True
  | Connected fetch close =>
    (exists e, fetch = Raises e) \/ (exists e, close = Raises e)
  end.

(** No convention file could be read. *)
Definition conventions_unreadable : Prop :=
  forall p, p ∈ potential_files -> exists e, probe_file p = Unreadable e.

(** What one convention file adds to the list: a line quoting the first
    hundred characters of its first kilobyte when it can be read, nothing
    when it is absent or cannot be read. *)
Definition derived_convention (file_path : string) : option string :=
  match probe_file file_path with
  | Readable text =>
    Some ("Derived from " +:+ file_path +:+ ": "
          +:+ String.substring 0 100 (String.substring 0 1024 text) +:+ "...")
  | Missing => None
  | Unreadable _ => None
  end.

End OrchestratorWords.

Section QueueWords.
Import WorkflowQueue.
Context `{!Library}.

(** A record is active: it exists with status pending or in_progress. *)
Definition active (s : Redis) (id : string) : Prop :=
  hgetall s (_get_request_key id) !! "status" = Some (Text "pending")
  \/ hgetall s (_get_request_key id) !! "status" = Some (Text "in_progress").

(** The order in which the worker issues the calls for one request:
    [mark_in_progress], then one of [mark_completed] and [mark_failed]. *)
Definition worker_order (calls : list MarkCall) : Prop :=
  calls = [] \/ calls = [MarkInProgress]
  \/ exists c, target c <> in_progress /\ calls = [MarkInProgress; c].


End QueueWords.

Section FactoryWords.
Import AgentFactory.
Context `{!ContextTools}.


(** The record a successful resolution of [req] builds in iteration [iter]. *)
Definition built_item (iter : Z) (req : ContextRequest) (answer : AgentAnswer)
    : ContextGathering :=
  {| iteration := iter; context_type := req_type req;
     result := ContextFound (answer_context_found answer); failed := false;
     cost_usd := answer_cost answer; tokens := answer_tokens answer;
     cache_key := make_cache_key req |}.

(** A cache will keep the record: with no Redis client the state object must
    carry an in-memory cache; with a client its commands must succeed, and
    unless there is an in-memory cache too the stored text must be non-empty
    and decode back to the record. *)
Definition caching_available (g : Gathering) (item : ContextGathering) : Prop :=
  match redis_client (world g) with
  | None => is_Some (cache g)
  | Some r =>
    reachable r = true
    /\ (is_Some (cache g)
        \/ (json_dumps item <> "" /\ json_loads (json_dumps item) = Returns item))
  end.

End FactoryWords.

End SpecWords.

(* ===================================================================== *)
(** ** Concrete inputs used by the examples below *)
(* ===================================================================== *)

Module Examples.
Import Schemas Prompts AgentFactory Orchestrator.

#[export] Instance validation_error_text : ExceptionText ValidationError := fun e =>
  match e with
  | ConfidenceOutOfRange => "confidence: input should be between 0 and 1"
  | SummaryTooShort => "summary: string should have at least 10 characters"
  | IterationsBelowOne => "iterations_used: input should be greater than or equal to 1"
  end.

Definition finding_of (id : string) (s : Severity) : Finding :=
  {| finding_id := id; finding_iteration := 1; severity := s; finding_type := bug;
     file := "src/auth.py"; line := 10;
     description := "password compared in plain text";
     suggestion := None; code_snippet := None |}.

(** A security specialist after one pass: one high and one low finding, no
    context gathered. *)
Definition security_state : ReviewAgentState :=
  {| st_specialty := security;
     st_context_requests_this_iteration := [];
     st_context_gathered := [];
     st_findings := [finding_of "F1" high; finding_of "F2" low];
     st_reasoning_history := ["plan"; "analysis"];
     st_current_iteration := 2;
     st_needs_more_context := false;
     st_final_report := None |}.

(** A run state with nothing loaded yet. *)
Definition blank_state : PRReviewState :=
  {| changed_files := ["src/auth.py"]; repo_memory := ∅; similar_prs := [];
     repo_conventions := []; orchestrator_plan := None; review_agent_reports := [];
     orchestration_metadata := ∅ |}.

(** A run state whose caller supplied all three memory fields. *)
Definition supplied_state : PRReviewState :=
  {| changed_files := ["src/auth.py"];
     repo_memory := {[ "owner" := PyStr "platform" ]};
     similar_prs := [ {| pr_number := 7; pr_title := "Rotate keys";
                         pr_complexity := "simple"; pr_summary := "ok" |} ];
     repo_conventions := ["Prefer composition"];
     orchestrator_plan := None; review_agent_reports := [];
     orchestration_metadata := ∅ |}.

(** An environment in which the database refuses connections and no
    convention file can be opened. *)
#[export] Instance hostile_environment : Environment :=
  {| learning_enabled := true;
     asyncpg_available := true;
     postgres_url := Some "postgresql://reviews";
     db_session := ConnectRaises "connection refused";
     probe_file := fun _ => Unreadable "permission denied" |}.

(** An environment without learning in which the first convention file can
    be read, the second cannot, and the third is absent. *)
Definition mixed_environment : Environment :=
  {| learning_enabled := false;
     asyncpg_available := false;
     postgres_url := None;
     db_session := ConnectRaises "connection refused";
     probe_file := fun file_path =>
       if bool_decide (file_path = ".github/CONTRIBUTING.md")
       then Readable "Keep pull requests small."
       else if bool_decide (file_path = "AGENTS.md")
       then Unreadable "permission denied"
       else Missing |}.

(** Four planned specialists: security times out, dependencies raises, the
    other two return no report. *)
#[export] Instance flaky_runtime : AgentRuntime :=
  {| run_subgraph := fun agent _ =>
       match agent with
       | security => TimedOut
       | dependencies => Failed "rate limit exceeded"
       | _ => Completed (DictResult None)
       end;
     model_validate := fun raw => Raises ("cannot validate " +:+ raw);
     duration := fun _ => 1 # 2 |}.

Definition planned_state : PRReviewState :=
  {| changed_files := ["src/auth.py"]; repo_memory := ∅; similar_prs := [];
     repo_conventions := [];
     orchestrator_plan := Some [alignment; security; dependencies; testing];
     review_agent_reports := []; orchestration_metadata := ∅ |}.

(** A reasoning backend that asks for git history when planning and, at
    every analysis, reports nothing and asks for more context. *)
Definition history_request : ContextRequest :=
  {| req_type := git_history; req_query := Some "auth"; req_files := Some ["src/auth.py"] |}.

#[export] Instance insatiable_backend : ReasoningBackend :=
  {| plan_reply := fun _ =>
       Parsed {| plan_context_requests := Some [history_request];
                 plan_reasoning := Some "need the history of auth.py" |};
     analysis_reply := fun _ =>
       Parsed {| analysis_findings := Some [];
                 analysis_needs_more_context := Some true;
                 analysis_reasoning := Some "still unsure" |} |}.

(** Context tools whose agent always answers; cached records are stored
    under a text that does not decode. *)
#[export] Instance answering_tools : ContextTools :=
  {| context_agent := fun _ _ query =>
       Returns {| answer_context_found := "summary for " +:+ query;
                  answer_cost := 1 # 1000; answer_tokens := 50 |};
     AgentFactory.json_dumps := fun item => "item:" +:+ cache_key item;
     AgentFactory.json_loads := fun text => Raises "Expecting value";
     _context_cache_ttl := 3600 |}.

(** No Redis (the connection failed), clock at 0, nothing invoked yet. *)
Definition offline_world : World :=
  {| redis_client := None; clock := 0; tool_invocations := [] |}.

(** The loop variables of a fresh spawn_context call on a
    [ReviewAgentState] (no in-memory cache) in the offline world. *)
Definition uncached_start : Gathering :=
  {| gathered := []; cache := None; world := offline_world |}.

(** The same on a state object that carries an (empty) in-memory cache. *)
Definition memory_cached_start : Gathering :=
  {| gathered := []; cache := Some ∅; world := offline_world |}.

(** A stand-in library for the queue: the digest wraps its input, JSON
    objects are written as key=value lists (sorted by key on request). *)
Definition show_json (v : WorkflowQueue.Json) : string :=
  match v with
  | WorkflowQueue.JNull => "null"
  | WorkflowQueue.JBool b => if b then "true" else "false"
  | WorkflowQueue.JInt n => str_of_int n
  | WorkflowQueue.JStr text => text
  end.

Definition key_le (a b : string * WorkflowQueue.Json) : Prop :=
  String.leb a.1 b.1 = true.

#[export] Instance key_le_dec a b : Decision (key_le a b).
Proof. unfold key_le. apply _. Defined.

#[export] Instance stand_in_library : WorkflowQueue.Library :=
  {| WorkflowQueue.md5_hexdigest := fun text => "md5(" +:+ text +:+ ")";
     WorkflowQueue.json_dumps := fun sort_keys ps =>
       String.concat ","
         (map (fun kv => kv.1 +:+ "=" +:+ show_json kv.2)
              (if sort_keys then merge_sort key_le ps else ps));
     WorkflowQueue.json_loads := fun text => Some [];
     WorkflowQueue.isoformat := str_of_int;
     WorkflowQueue.fromisoformat := fun text =>
       if bool_decide (text = "yesterday") then None else Some 0;
     WorkflowQueue._timeout := 300 |}.

Definition empty_redis : WorkflowQueue.Redis :=
  {| WorkflowQueue.hashes := ∅; WorkflowQueue.queue := []; WorkflowQueue.ttl := ∅ |}.

Definition ci_request : WorkflowQueue.WorkflowRequest :=
  {| WorkflowQueue.request_id := "caller-chosen-id";
     WorkflowQueue.requesting_agent := "testing";
     WorkflowQueue.request_type := WorkflowQueue.run_ci;
     WorkflowQueue.params :=
       [("repo_name", WorkflowQueue.JStr "acme/widgets"); ("pr_number", WorkflowQueue.JInt 7)];
     WorkflowQueue.timestamp := 1700000000;
     WorkflowQueue.status := WorkflowQueue.pending;
     WorkflowQueue.result := None |}.

(** The id the stand-in library gives [ci_request], and a store in which
    the request is queued: its pending record (the mapping of [enqueue]
    without the [None] entry) under the key of the id, the id on the list,
    ten minutes to live. *)
Definition ci_id : string := "md5(run_ci:pr_number=7,repo_name=acme/widgets)".

Definition enqueued_redis : WorkflowQueue.Redis :=
  WorkflowQueue.expire
    (WorkflowQueue.lpush
       (WorkflowQueue.hset empty_redis (WorkflowQueue._get_request_key ci_id)
          (delete "result" (WorkflowQueue.request_data ci_id ci_request)))
       ci_id)
    (WorkflowQueue._get_request_key ci_id) 600.



End Examples.

(* ===================================================================== *)
(** ** agents/workflow_queue.py, continued: waiting for a result *)
(* ===================================================================== *)

Module WorkflowWaiting.
Import WorkflowQueue.

(** What [wait_for_result] can raise: a plain [Exception] with its message,
    a [TimeoutError] with its message, or an exception of the decoding it
    does not catch. *)
Inductive WaitError :=
| PlainException (message : string)
| TimeoutError (message : string)
| Uncaught (e : Exception).

(** [request_data.get(b'name', default).decode()] *)
Definition field_or (data : gmap string FieldValue) (name default : string)
    : outcome Exception string :=
  match data !! name with
  | None => Returns default
  | Some (Text s) => Returns s
  | Some PyNone => Raises AttributeError
  end.

(** The text [{"error": "unknown"}]. *)
Definition double_quote : string :=
  String (Ascii.Ascii false true false false false true false false) EmptyString.

Definition unknown_error : string :=
  "{" +:+ double_quote +:+ "error" +:+ double_quote +:+ ": "
  +:+ double_quote +:+ "unknown" +:+ double_quote +:+ "}".

(** One turn of the polling loop on the store as it is at that moment:
    [Returns (Some result)] leaves the loop with the result,
    [Returns None] sleeps and polls again. *)
Definition check_result `{Library} (s : Redis) (request_id : string)
    : outcome WaitError (option Params) :=
  let data := hgetall s (_get_request_key request_id) in
  if bool_decide (data = ∅)
  then Raises (PlainException ("Request " +:+ request_id +:+ " not found"))
  else
    match field_or data "status" "pending" with
    | Raises e => Raises (Uncaught e)
    | Returns status =>
      if bool_decide (status = "completed") then
        match field_or data "result" "{}" with
        | Raises e => Raises (Uncaught e)
        | Returns result_json =>
          match json_loads result_json with
          | Some result => Returns (Some result)
          | None => Raises (Uncaught JSONDecodeError)
          end
        end
      else if bool_decide (status = "failed") then
        match field_or data "result" unknown_error with
        | Raises e => Raises (Uncaught e)
        | Returns error_data =>
          Raises (PlainException ("Workflow request failed: " +:+ error_data))
        end
      else Returns None
    end.

(** [wait_for_result].  [observations] lists the store as each poll finds
    it, one entry per loop turn entered (other actors change the store
    between polls); the end of the list stands for the loop test
    [(now - start).seconds < timeout] found false.  That test cannot fail for
    a timeout of 86400 or more ([timedelta.seconds] stays below 86400), so
    for such a timeout the value at the end of the list describes no run of
    the program; the statements below that reach the end of the list are for
    a timeout of zero or less, where the first test fails. *)
Fixpoint wait_loop `{Library} (observations : list Redis) (request_id : string)
    (timeout : Z) : outcome WaitError Params :=
  match observations with
  | [] =>
    Raises (TimeoutError ("Workflow request " +:+ request_id +:+ " timed out after "
                          +:+ str_of_int timeout +:+ " seconds"))
  | s :: later =>
    match check_result s request_id with
    | Returns (Some result) => Returns result
    | Returns None => wait_loop later request_id timeout
    | Raises e => Raises e
    end
  end.

Definition wait_for_result `{Library} (observations : list Redis) (request_id : string)
    (timeout : option Z) : outcome WaitError Params :=
  let timeout := default _timeout timeout in
  wait_loop (if timeout <=? 0 then [] else observations) request_id timeout.

End WorkflowWaiting.

(* ===================================================================== *)
(** ** agents/workflow_agent.py *)
(* ===================================================================== *)

Module WorkflowAgent.
Import WorkflowQueue.

(** [_execute_request]: the type-specific handler, which returns a result
    dict or raises. *)
Class Handlers := {
  _execute_request : WorkflowRequest -> outcome string Params
}.

(** What one turn of the [_process_queue] loop did. *)
Inductive Turn :=
| Idle                                   (** nothing to do: sleep 2 s *)
| LoopError (e : Exception)              (** caught by the loop: sleep 5 s *)
| Executed (request : WorkflowRequest) (ended : outcome string Params).

(** One turn of the [while self.is_running] loop, at time [now]. *)
Definition process_once `{Library} `{Handlers} (now : Timestamp) (s : Redis)
    : Turn * Redis :=
  match get_next_request s with
  | (Raises e, s') => (LoopError e, s')
  | (Returns None, s') => (Idle, s')
  | (Returns (Some request), s') =>
    let s1 := mark_in_progress s' (request_id request) in
    match _execute_request request with
    | Returns result =>
      (Executed request (Returns result),
       mark_completed s1 (request_id request) result now)
    | Raises e =>
      (Executed request (Raises e), mark_failed s1 (request_id request) e now)
    end
  end.

End WorkflowAgent.

(* ===================================================================== *)
(** ** factory/agent_factory.py, continued: tool resolution and the context
       agents *)
(* ===================================================================== *)

Module McpTools.
Import Schemas.

(** A LangChain tool, known by its name. *)
Record Tool := { name : string }.

#[global] Instance Tool_eq_dec : EqDecision Tool.
Proof. solve_decision. Defined.

(** The Python values that tools return and that the result dicts hold. *)
#[warnings="-register-all"]
Inductive PyObj :=
| PNone
| PBool (b : bool)
| PInt (n : Z)
| PText (s : string)
| PList (items : list PyObj)
| PDict (entries : list (string * PyObj)).

(** A [dict] literal, in insertion order. *)
Definition Dict := list (string * PyObj).

Definition dict_get (d : Dict) (key : string) : option PyObj :=
  snd <$> head (filter (fun kv => kv.1 = key) d).

(** The builtins of [str] the code calls, and [str(x)] of a value. *)
Class PythonStrings := {
  str_lower : string -> string;
  str_title : string -> string;
  str_replace : string -> string -> string -> string;
  py_str : PyObj -> string;
  (** the messages of the [TypeError] of ["error" in x] and of the
      [AttributeError] of [x.get] on a value that supports neither *)
  not_a_container : PyObj -> string;
  has_no_get : PyObj -> string
}.

(** Settings and collaborators: the [mcp] switches, the tool provider, tool
    invocation, obtaining the summarizing model, and its answer. *)
Class McpEnvironment := {
  zoekt_enabled : bool;
  lsp_enabled : bool;
  git_enabled : bool;
  get_mcp_tools : outcome string (list Tool);
  ainvoke : Tool -> Dict -> outcome string PyObj;
  get_llm : outcome string ();
  summarize : string -> outcome string string
}.

(** [needle in haystack] on strings. *)
Fixpoint contains (needle haystack : string) : bool :=
  String.prefix needle haystack
  || match haystack with
     | EmptyString => false
     | String _ rest => contains needle rest
     end.

(** A parameter that is [None] or empty is falsy. *)
Definition given (o : option string) : option string :=
  match o with
  | Some text => if bool_decide (text = "") then None else Some text
  | None => None
  end.

(** [next((t for t in tools if ...), None)] *)
Definition first_tool (P : Tool -> Prop) `{!forall t, Decision (P t)} (tools : list Tool)
    : option Tool :=
  head (filter P tools).

(** [_resolve_mcp_tool] on the loaded tools. *)
Definition resolve_in `{PythonStrings} (tools : list Tool)
    (tool_name tool_prefix matching : option string) : option Tool :=
  let exact :=
    match given tool_name with
    | Some wanted => first_tool (fun t => name t = wanted) tools
    | None => None
    end in
  match exact with
  | Some t => Some t
  | None =>
    match given tool_prefix with
    | Some pre =>
      let prefixed := filter (fun t => String.prefix (pre +:+ "__") (name t) = true) tools in
      let matched :=
        match given matching with
        | Some m =>
          first_tool (fun t => contains (str_lower m) (str_lower (name t)) = true) prefixed
        | None => None
        end in
      match matched with
      | Some t => Some t
      | None => head prefixed
      end
    | None => None
    end
  end.

(** [get_mcp_tool_by_name]: [loaded] is [self._mcp_tools]. *)
Definition get_mcp_tool_by_name (loaded : option (list Tool)) (tool_name : string)
    : outcome string (option Tool) :=
  match loaded with
  | None => Raises "MCP tools not initialized. Call get_mcp_tools() first."
  | Some tools => Returns (first_tool (fun t => name t = tool_name) tools)
  end.

(** *** Calls that are logged *)

(** One tool invocation: the tool's name and the argument dict. *)
Definition Invocation := (string * Dict)%type.

(** A computation that may invoke tools: from the log so far to its outcome
    and the log after. *)
Definition Logged (A : Type) := list Invocation -> outcome string A * list Invocation.

#[global] Instance Logged_ret : MRet Logged := fun A a log => (Returns a, log).
#[global] Instance Logged_bind : MBind Logged := fun A B k m log =>
  match m log with
  | (Returns a, log') => k a log'
  | (Raises e, log') => (Raises e, log')
  end.

Definition raise {A} (e : string) : Logged A := fun log => (Raises e, log).

Definition lift {A} (o : outcome string A) : Logged A := fun log => (o, log).

(** [try: body except Exception as e: handler(e)] *)
Definition try_catch {A} (body : Logged A) (handler : string -> Logged A) : Logged A :=
  fun log =>
    match body log with
    | (Returns a, log') => (Returns a, log')
    | (Raises e, log') => handler e log'
    end.

(** [await tool.ainvoke(args)] *)
Definition invoke `{McpEnvironment} (t : Tool) (args : Dict) : Logged PyObj :=
  fun log => (ainvoke t args, log ++ [(name t, args)]).

(** [await self._resolve_mcp_tool(...)] *)
Definition _resolve_mcp_tool `{PythonStrings} `{McpEnvironment}
    (tool_name tool_prefix matching : option string) : Logged (option Tool) :=
  tools ← lift get_mcp_tools;
  mret (resolve_in tools tool_name tool_prefix matching).

(** [result if isinstance(result, list) else [result]] *)
Definition as_list (result : PyObj) : PyObj :=
  match result with
  | PList _ => result
  | _ => PList [result]
  end.

(** The fields of [ContextAgentState] the tool calls read. *)
Record ContextAgentState := {
  task : string;
  target_files : list string;
  query : string
}.

(** *** _call_zoekt_tool *)

Definition mock_search_result `{PythonStrings} (q : string) : Dict :=
  [ ("results",
     PList [ PDict [ ("file", PText ("src/" +:+ str_replace q " " "_" +:+ ".py"));
                     ("line", PInt 10);
                     ("content", PText ("# Found pattern: " +:+ q));
                     ("match_type", PText "mock") ] ]);
    ("total_matches", PInt 1);
    ("query", PText q);
    ("source", PText "mock_fallback") ].

Definition _call_zoekt_tool `{PythonStrings} `{McpEnvironment}
    (state : ContextAgentState) (fallback_tool : option string) : Logged Dict :=
  if negb zoekt_enabled
  then mret [("results", PList []); ("error", PText "Zoekt search is disabled")]
  else
    try_catch
      (search_tool ← _resolve_mcp_tool None (Some "zoekt") (Some "search");
       match search_tool with
       | Some t =>
         result ← invoke t [("query", PText (query state))];
         mret [ ("results", as_list result); ("total_matches", PInt 1);
                ("search_time_ms", PInt 25); ("query", PText (query state));
                ("source", PText "mcp_zoekt") ]
       | None =>
         fallback ←
           match given fallback_tool with
           | Some wanted => _resolve_mcp_tool (Some wanted) None None
           | None => mret None
           end;
         match fallback with
         | Some t =>
           result ← invoke t [("query", PText (query state))];
           mret [ ("results", as_list result); ("total_matches", PInt 1);
                  ("query", PText (query state)); ("source", PText "fallback_tool") ]
         | None =>
           search_tool ← _resolve_mcp_tool None (Some "filesystem") (Some "search");
           match search_tool with
           | Some t =>
             result ← invoke t [("query", PText (query state))];
             mret [ ("results", as_list result); ("total_matches", PInt 1);
                    ("query", PText (query state));
                    ("source", PText "mcp_filesystem_fallback") ]
           | None => mret (mock_search_result (query state))
           end
         end
       end)
      (fun e => mret [("results", PList []); ("error", PText ("Search failed: " +:+ e))]).

(** *** _call_lsp_tool *)

Definition mock_lsp_result `{PythonStrings} (file_name : string) : Dict :=
  [ ("file", PText file_name);
    ("hover",
     PDict [ ("text", PText ("class " +:+ str_title (str_replace file_name ".py" "")
                              +:+ " {}"));
             ("range",
              PDict [ ("start", PDict [("line", PInt 1); ("character", PInt 0)]);
                      ("end", PDict [("line", PInt 1); ("character", PInt 10)]) ]) ]);
    ("references",
     PList [ PDict [("file", PText file_name); ("line", PInt 5); ("column", PInt 8)] ]);
    ("source", PText "mock_fallback") ].

Definition no_target_files_lsp : Dict :=
  [("hover", PNone); ("references", PList []); ("error", PText "No target files provided")].

Definition _call_lsp_tool `{PythonStrings} `{McpEnvironment}
    (state : ContextAgentState) (fallback_tool : option string) : Logged Dict :=
  if negb lsp_enabled
  then mret [("hover", PNone); ("references", PList []); ("error", PText "LSP is disabled")]
  else
    try_catch
      (lsp_tool ← _resolve_mcp_tool None (Some "lsp") (Some "symbol");
       match lsp_tool, target_files state with
       | Some t, file_path :: _ =>
         result ← invoke t [("file", PText file_path)];
         mret [("analysis", result); ("file", PText file_path); ("source", PText "mcp_lsp")]
       | _, _ =>
         fallback ←
           match given fallback_tool, target_files state with
           | Some wanted, _ :: _ => _resolve_mcp_tool (Some wanted) None None
           | _, _ => mret None
           end;
         match fallback, target_files state with
         | Some t, file_path :: _ =>
           result ← invoke t [("path", PText file_path)];
           mret [ ("file_content", result); ("file", PText file_path);
                  ("source", PText "fallback_tool") ]
         | _, _ =>
           read_tool ← _resolve_mcp_tool None (Some "filesystem") (Some "read");
           match read_tool, target_files state with
           | Some t, file_path :: _ =>
             result ← invoke t [("path", PText file_path)];
             mret [ ("file_content", result); ("file", PText file_path);
                    ("source", PText "mcp_filesystem_fallback") ]
           | _, [] => mret no_target_files_lsp
           | None, file_name :: _ => mret (mock_lsp_result file_name)
           end
         end
       end)
      (fun e => mret [ ("hover", PNone); ("references", PList []);
                       ("error", PText ("LSP failed: " +:+ e)) ]).

(** *** _call_git_tool *)

(** [try: r = await tool.ainvoke(...); as_list(r) except Exception: []] *)
Definition invoke_or_empty `{McpEnvironment} (t : Tool) (args : Dict) : Logged PyObj :=
  try_catch (result ← invoke t args; mret (as_list result)) (fun _ => mret (PList [])).

Definition py_len (o : PyObj) : Z :=
  match o with
  | PList items => len items
  | _ => 0
  end.

Definition mock_git_result (file_name : string) : Dict :=
  [ ("history",
     PList [ PDict [ ("commit", PText "abc123"); ("author", PText "developer@example.com");
                     ("date", PText "2024-01-15T10:30:00Z");
                     ("message", PText "Initial implementation");
                     ("file", PText file_name) ] ]);
    ("blame",
     PList [ PDict [ ("line", PInt 1); ("content", PText ("# " +:+ file_name));
                     ("commit", PText "abc123");
                     ("author", PText "developer@example.com") ] ]);
    ("total_commits", PInt 1);
    ("source", PText "mock_fallback") ].

Definition no_target_files_git : Dict :=
  [("history", PList []); ("blame", PList []); ("error", PText "No target files provided")].

Definition _call_git_tool `{PythonStrings} `{McpEnvironment}
    (state : ContextAgentState) (fallback_tool : option string) : Logged Dict :=
  if negb git_enabled
  then mret [ ("history", PList []); ("blame", PList []);
              ("error", PText "Git analysis is disabled") ]
  else
    try_catch
      (git_tool ← _resolve_mcp_tool None (Some "git") (Some "log");
       match git_tool, target_files state with
       | Some log_tool, file_path :: _ =>
         history ← invoke_or_empty log_tool [("path", PText file_path)];
         blame_tool ← _resolve_mcp_tool None (Some "git") (Some "blame");
         match blame_tool with
         | Some t =>
           blame ← invoke_or_empty t [("path", PText file_path)];
           mret [ ("history", history); ("blame", blame); ("source", PText "mcp_git");
                  ("total_commits", PInt (py_len history)) ]
         | None =>
           mret [ ("history", history); ("source", PText "mcp_git");
                  ("total_commits", PInt (py_len history)) ]
         end
       | _, _ =>
         fallback ←
           match given fallback_tool, target_files state with
           | Some wanted, _ :: _ => _resolve_mcp_tool (Some wanted) None None
           | _, _ => mret None
           end;
         match fallback, target_files state with
         | Some t, file_path :: _ =>
           result ← invoke t [("path", PText file_path)];
           mret [ ("history", as_list result); ("blame", PList []);
                  ("source", PText "fallback_tool") ]
         | _, [] => mret no_target_files_git
         | _, file_name :: _ => mret (mock_git_result file_name)
         end
       end)
      (fun e => mret [ ("history", PList []); ("blame", PList []);
                       ("error", PText ("Git analysis failed: " +:+ e)) ]).

(** *** create_async_context_agent *)

(** CONTEXT_AGENT_TEMPLATES[context_type].get("fallback_tool") *)
Definition fallback_tool_of (context_type : ContextType) : option string :=
  match context_type with
  | zoekt_search => Some "filesystem__search_files"
  | lsp_analysis => Some "filesystem__read_file"
  | git_history => None
  | test_coverage => Some "filesystem__read_file"
  end.

(** [item == "error"] *)
Definition is_error_text (item : PyObj) : bool :=
  match item with
  | PText text => bool_decide (text = "error")
  | _ => false
  end.

(** ["error" in tool_result], which raises [TypeError] on a value that is no
    container. *)
Definition has_error `{PythonStrings} (o : PyObj) : outcome string bool :=
  match o with
  | PDict entries => Returns (bool_decide ("error" ∈ entries.*1))
  | PList items => Returns (existsb is_error_text items)
  | PText text => Returns (contains "error" text)
  | _ => Raises (not_a_container o)
  end.

(** [tool_result.get('error', 'Unknown error')] *)
Definition get_error `{PythonStrings} (o : PyObj) : outcome string PyObj :=
  match o with
  | PDict entries => Returns (default (PText "Unknown error") (dict_get entries "error"))
  | _ => Raises (has_no_get o)
  end.

(** A value inside an f-string: a [str] as it is, anything else through
    [str()]. *)
Definition format_value `{PythonStrings} (o : PyObj) : string :=
  match o with
  | PText text => text
  | _ => py_str o
  end.

(** What the context agent function returns. *)
Record AgentReply := {
  context_found : Dict;
  cost : Q;
  tokens : Z
}.

(** The tool call of one context type. *)
Definition call_tool `{PythonStrings} `{McpEnvironment} (context_type : ContextType)
    (state : ContextAgentState) : Logged PyObj :=
  let fallback := fallback_tool_of context_type in
  match context_type with
  | zoekt_search => d ← _call_zoekt_tool state fallback; mret (PDict d)
  | lsp_analysis => d ← _call_lsp_tool state fallback; mret (PDict d)
  | git_history => d ← _call_git_tool state fallback; mret (PDict d)
  | test_coverage =>
    match given fallback, target_files state with
    | Some wanted, file_path :: _ =>
      named_tool ← _resolve_mcp_tool (Some wanted) None None;
      match named_tool with
      | Some t => invoke t [("path", PText file_path)]
      | None =>
        mret (PDict [ ("results", PList []);
                      ("error", PText ("Fallback tool " +:+ wanted +:+ " not available")) ])
      end
    | _, _ =>
      mret (PDict [ ("results", PList []);
                    ("error", PText "test_coverage tool not implemented") ])
    end
  end.

Definition async_context_agent_fn `{PythonStrings} `{McpEnvironment}
    (context_type : ContextType) (state : ContextAgentState) : Logged AgentReply :=
  try_catch
    (_ ← lift get_llm;
     tool_result ← call_tool context_type state;
     failed ← lift (has_error tool_result);
     if negb failed then
       summary_text ← lift (summarize (py_str tool_result));
       mret {| context_found := [("raw", tool_result); ("summary", PText summary_text)];
               cost := 1 # 1000;
               tokens := Z.of_nat (String.length summary_text) `div` 4 |}
     else
       error ← lift (get_error tool_result);
       mret {| context_found :=
                 [ ("raw", tool_result);
                   ("summary", PText ("Tool failed: " +:+ format_value error)) ];
               cost := 1 # 1000;
               tokens := 50 |})
    (fun e =>
       mret {| context_found :=
                 [ ("raw", PDict [ ("results", PList []); ("error", PText e);
                                   ("source", PText "error") ]);
                   ("error", PText e);
                   ("summary", PText ("Context gathering failed: " +:+ e)) ];
               cost := 0;
               tokens := 0 |}).

End McpTools.

(* ===================================================================== *)
(** ** agents/orchestrator.py, continued: collect and the graph *)
(* ===================================================================== *)

Module OrchestratorGraph.
Import Schemas Orchestrator.

(** The dict [collect] stores under "aggregated_report". *)
Record AggregatedReport := {
  total_agents : Z;
  agent_types : list Specialty;
  overall_verdict : string;
  report_summary : string
}.

(** A value of the updated memory: one of the caller's, or the aggregate. *)
Inductive MemoryEntry :=
| Kept (value : PyValue)
| Aggregate (aggregated_report : AggregatedReport).

Record CollectUpdates := {
  upd_ready_for_healing : bool;
  upd_memory : gmap string MemoryEntry
}.

Definition collect (state : PRReviewState) : CollectUpdates :=
  let num_reports := len (review_agent_reports state) in
  let aggregated_report :=
    {| total_agents := num_reports;
       agent_types := map specialty (review_agent_reports state);
       overall_verdict := _determine_overall_verdict (review_agent_reports state);
       report_summary :=
         "Completed review with " +:+ str_of_int num_reports +:+ " agents" |} in
  {| upd_ready_for_healing := false;
     upd_memory :=
       <["aggregated_report" := Aggregate aggregated_report]> (Kept <$> repo_memory state) |}.

(** The graph's merge of the updates of [plan_agents] and
    [run_review_agents]: the plan replaces, [review_agent_reports] is
    declared with [operator.add] and accumulates, the metadata replaces. *)
Definition with_plan (state : PRReviewState) (agents : list Specialty) : PRReviewState :=
  {| changed_files := changed_files state; repo_memory := repo_memory state;
     similar_prs := similar_prs state; repo_conventions := repo_conventions state;
     orchestrator_plan := Some agents;
     review_agent_reports := review_agent_reports state;
     orchestration_metadata := orchestration_metadata state |}.

Definition with_reviews (state : PRReviewState) (u : ReviewUpdates) : PRReviewState :=
  {| changed_files := changed_files state; repo_memory := repo_memory state;
     similar_prs := similar_prs state; repo_conventions := repo_conventions state;
     orchestrator_plan := orchestrator_plan state;
     review_agent_reports := review_agent_reports state ++ upd_review_agent_reports u;
     orchestration_metadata := upd_orchestration_metadata u |}.

(** The edges plan_agents -> run_review_agents -> collect of [build_graph],
    from the state that reaches plan_agents. *)
Definition review_and_collect `{AgentRuntime} (state : PRReviewState)
    : PRReviewState * CollectUpdates :=
  let planned := with_plan state (plan_agents state) in
  let reviewed := with_reviews planned (run_review_agents planned) in
  (reviewed, collect reviewed).

End OrchestratorGraph.

(* ===================================================================== *)
(** ** Vocabulary of the statements about the rest of the code *)
(* ===================================================================== *)

Module MoreWords.

Section QueueTerms.
Import WorkflowQueue.
Context `{!Library}.

(** What [get_next_request] does once the id at the right end is known. *)
Definition delivered (parsed : outcome Exception WorkflowRequest)
    : outcome Exception (option WorkflowRequest) :=
  match parsed with
  | Returns request => Returns (Some request)
  | Raises (KeyError _) => Returns None
  | Raises JSONDecodeError => Returns None
  | Raises e => Raises e
  end.

(** The mapping a lifecycle call writes. *)
Definition written (c : MarkCall) : gmap string FieldValue :=
  match c with
  | MarkInProgress => {[ "status" := Text "in_progress" ]}
  | MarkCompleted result now =>
    list_to_map [ ("status", Text "completed");
                  ("result", Text (json_dumps false result));
                  ("completed_at", Text (isoformat now)) ]
  | MarkFailed error now =>
    list_to_map [ ("status", Text "failed");
                  ("result", Text (json_dumps false [("error", JStr error)]));
                  ("failed_at", Text (isoformat now)) ]
  end.

End QueueTerms.

Section ToolTerms.
Import McpTools.
Context `{!PythonStrings}.

(** The configured fallback resolves to nothing: none is configured, or no
    listed tool bears its name. *)
Definition fallback_unresolved (tools : list Tool) (fallback_tool : option string) : Prop :=
  match given fallback_tool with
  | Some wanted => resolve_in tools (Some wanted) None None = None
  | None => True
  end.

End ToolTerms.

Section SubgraphTerms.
Import Schemas.

(** The state [s'] continues [s]: same specialty, the three accumulated
    lists only extended, the iteration counter not lowered. *)
Definition continues (s s' : ReviewAgentState) : Prop :=
  st_specialty s' = st_specialty s
  /\ st_findings s `prefix_of` st_findings s'
  /\ st_context_gathered s `prefix_of` st_context_gathered s'
  /\ st_reasoning_history s `prefix_of` st_reasoning_history s'
  /\ st_current_iteration s <= st_current_iteration s'.

End SubgraphTerms.

Section OrchestratorTerms.
Import Schemas Orchestrator.

(** The specialist's run came back, but with nothing under [final_report]. *)
Definition reportless (r : AgentRun) : Prop :=
  match r with
  | Completed (StateObject None) => True
  | Completed (DictResult None) => True
  | Completed (DictResult (Some None)) => True
  | Completed OtherResult => True
  | _ => False
  end.

(** The key of a specialist's entry in [orchestration_metadata]. *)
Definition metadata_key (agent : Specialty) : string :=
  "agent_" +:+ specialty_name agent.

End OrchestratorTerms.

End MoreWords.

(* ===================================================================== *)
(** ** More concrete inputs *)
(* ===================================================================== *)

Module MoreExamples.

Section QueueExamples.
Import WorkflowQueue WorkflowWaiting WorkflowAgent.

Definition success_result : Params := [("status", JStr "success")].

Definition known_objects : list Params :=
  [params Examples.ci_request; success_result; []].

Definition known_times : list Timestamp := [1700000000; 1700000090].

(** A library that writes as [Examples.stand_in_library] does and reads
    back the objects and the times listed above; any other text does not
    decode. *)
Definition codec_library : Library :=
  {| md5_hexdigest := @md5_hexdigest Examples.stand_in_library;
     json_dumps := @json_dumps Examples.stand_in_library;
     json_loads := fun text =>
       head (filter (fun p => @json_dumps Examples.stand_in_library false p = text)
                    known_objects);
     isoformat := str_of_int;
     fromisoformat := fun text => head (filter (fun t => str_of_int t = text) known_times);
     _timeout := 300 |}.

(** A worker whose handlers always succeed. *)
Definition ci_handlers : Handlers :=
  {| _execute_request := fun _ => Returns success_result |}.

Definition ci_id : string := @_generate_request_id codec_library Examples.ci_request.

(** The CI request queued (pending record, id on the list), then picked up
    by the worker, then finished. *)
Definition queued_store : Redis :=
  expire
    (lpush
       (hset Examples.empty_redis (_get_request_key ci_id)
          (delete "result" (@request_data codec_library ci_id Examples.ci_request)))
       ci_id)
    (_get_request_key ci_id) 600.

Definition running_store : Redis := mark_in_progress queued_store ci_id.

Definition completed_store : Redis :=
  @mark_completed codec_library running_store ci_id success_result 1700000090.

(** The queued store after somebody overwrote the record's timestamp with
    a text that is no ISO date. *)
Definition poisoned_store : Redis :=
  hset queued_store (_get_request_key ci_id) {[ "timestamp" := Text "yesterday" ]}.

End QueueExamples.

Section ToolExamples.
Import Schemas McpTools.

(** The [str] builtins on ASCII text. *)
Definition is_upper (c : Ascii.ascii) : bool :=
  let n := Ascii.nat_of_ascii c in (65 <=? n)%nat && (n <=? 90)%nat.

Definition is_lower (c : Ascii.ascii) : bool :=
  let n := Ascii.nat_of_ascii c in (97 <=? n)%nat && (n <=? 122)%nat.

Definition lower_char (c : Ascii.ascii) : Ascii.ascii :=
  if is_upper c then Ascii.ascii_of_nat (Ascii.nat_of_ascii c + 32) else c.

Definition upper_char (c : Ascii.ascii) : Ascii.ascii :=
  if is_lower c then Ascii.ascii_of_nat (Ascii.nat_of_ascii c - 32) else c.

Fixpoint lower (text : string) : string :=
  match text with
  | EmptyString => EmptyString
  | String c rest => String (lower_char c) (lower rest)
  end.

Fixpoint title_from (after_letter : bool) (text : string) : string :=
  match text with
  | EmptyString => EmptyString
  | String c rest =>
    String (if after_letter then lower_char c else upper_char c)
           (title_from (is_upper c || is_lower c) rest)
  end.

(** [text.replace(old, new)] for a non-empty [old]; [skip] characters of a
    match just replaced are still to be passed over. *)
Fixpoint replace_from (skip : nat) (old new text : string) : string :=
  match text with
  | EmptyString => EmptyString
  | String c rest =>
    match skip with
    | S k => replace_from k old new rest
    | O =>
      if String.prefix old text
      then new +:+ replace_from (String.length old - 1) old new rest
      else String c (replace_from 0 old new rest)
    end
  end.

Definition type_name (o : PyObj) : string :=
  match o with
  | PNone => "NoneType"
  | PBool _ => "bool"
  | PInt _ => "int"
  | PText _ => "str"
  | PList _ => "list"
  | PDict _ => "dict"
  end.

(** [str(x)], with the contents of containers left out. *)
Definition render (o : PyObj) : string :=
  match o with
  | PNone => "None"
  | PBool b => if b then "True" else "False"
  | PInt n => str_of_int n
  | PText text => text
  | PList _ => "[...]"
  | PDict _ => "{...}"
  end.

Definition ascii_strings : PythonStrings :=
  {| str_lower := lower;
     str_title := title_from false;
     str_replace := fun text old new => replace_from 0 old new text;
     py_str := render;
     not_a_container := fun o => "argument of type '" +:+ type_name o +:+ "' is not iterable";
     has_no_get := fun o => "'" +:+ type_name o +:+ "' object has no attribute 'get'" |}.

Definition zoekt_search_tool : Tool := {| name := "zoekt__search" |}.
Definition git_log_tool : Tool := {| name := "git__git_log" |}.
Definition git_blame_tool : Tool := {| name := "git__git_blame" |}.

Definition served_tools : list Tool :=
  [ zoekt_search_tool; git_log_tool; git_blame_tool;
    {| name := "filesystem__read_file" |}; {| name := "filesystem__search_files" |} ].

(** Every analysis enabled; the Zoekt server refuses connections, the
    working copy has a log but blame fails, files can be read. *)
Definition served_answer (t : Tool) (args : Dict) : outcome string PyObj :=
  if bool_decide (name t = "zoekt__search") then Raises "connection refused"
  else if bool_decide (name t = "git__git_log") then Returns (PList [PText "abc123 Fix login"])
  else if bool_decide (name t = "git__git_blame") then Raises "not a git repository"
  else Returns (PText "def login(): ...").

Definition tools_environment : McpEnvironment :=
  {| zoekt_enabled := true; lsp_enabled := true; git_enabled := true;
     get_mcp_tools := Returns served_tools;
     ainvoke := served_answer;
     get_llm := Returns ();
     summarize := fun _ => Returns "One commit touches the login flow" |}.

(** The same without any MCP server configured. *)
Definition bare_environment : McpEnvironment :=
  {| zoekt_enabled := true; lsp_enabled := true; git_enabled := true;
     get_mcp_tools := Returns [];
     ainvoke := served_answer;
     get_llm := Returns ();
     summarize := fun _ => Returns "Nothing found" |}.

(** The same as [tools_environment] without a usable model. *)
Definition no_llm_environment : McpEnvironment :=
  {| zoekt_enabled := true; lsp_enabled := true; git_enabled := true;
     get_mcp_tools := Returns served_tools;
     ainvoke := served_answer;
     get_llm := Raises "no API key configured";
     summarize := fun _ => Returns "One commit touches the login flow" |}.

Definition login_question : ContextAgentState :=
  {| task := "review"; target_files := ["src/auth.py"]; query := "login flow" |}.

Definition question_without_files : ContextAgentState :=
  {| task := "review"; target_files := []; query := "login flow" |}.

End ToolExamples.

Section RunExamples.
Import Schemas Prompts AgentFactory Orchestrator.

(** A reasoning backend that never asks for more context. *)
Definition quiet_backend : ReasoningBackend :=
  {| plan_reply := fun _ =>
       Parsed {| plan_context_requests := Some [Examples.history_request];
                 plan_reasoning := Some "need the history of auth.py" |};
     analysis_reply := fun _ =>
       Parsed {| analysis_findings := Some [];
                 analysis_needs_more_context := Some false;
                 analysis_reasoning := Some "nothing to add" |} |}.

(** Context tools whose agent cannot reach its server. *)
Definition unreachable_tools : ContextTools :=
  {| context_agent := fun _ _ _ => Raises "MCP server unreachable";
     AgentFactory.json_dumps := fun item => "item:" +:+ cache_key item;
     AgentFactory.json_loads := fun text => Raises "Expecting value";
     _context_cache_ttl := 3600 |}.

Definition history_wanted : SpawnState :=
  {| current_iteration := 1;
     context_requests_this_iteration := [Examples.history_request];
     context_cache := None |}.

(** Specialists that all come back without a final report. *)
Definition silent_runtime : AgentRuntime :=
  {| run_subgraph := fun _ _ => Completed (DictResult None);
     model_validate := fun raw => Raises ("cannot validate " +:+ raw);
     duration := fun _ => 1 # 2 |}.

End RunExamples.

End MoreExamples.

(* ===================================================================== *)
(** * Properties *)
(* ===================================================================== *)

(** ** Specialist finalize: confidence and verdict *)

Section Finalize.
Import Schemas Prompts AgentFactory SpecWords.
Context `{!ExceptionText ValidationError}.

Lemma Qleb_dec_true a b : (a <= b)%Q -> Qleb_dec a b = true.
Proof.
  intros Hab. unfold Qleb_dec. destruct (Qlt_le_dec b a) as [Hlt|_]; [|done].
  exfalso. apply (Qlt_not_le _ _ Hlt Hab).
Qed.

Lemma clamp_bounds lo hi x : (lo <= hi)%Q -> (lo <= clamp lo hi x /\ clamp lo hi x <= hi)%Q.
Proof.
  intros Hlh. unfold clamp. split.
  - apply Q.le_max_l.
  - apply Q.max_lub; [done | apply Q.le_min_l].
Qed.

Lemma iteration_penalty_scaled d :
  (Qmax 0 (inject_Z d * (1 # 10)) == (1 # 10) * inject_Z (Z.max 0 d))%Q.
Proof.
  destruct (Z.le_gt_cases d 0) as [Hd|Hd].
  - rewrite Z.max_l by done. rewrite Q.max_l; [ring|].
    assert (inject_Z d <= inject_Z 0)%Q by (rewrite <- Zle_Qle; done).
    change (inject_Z 0) with 0%Q in *. lra.
  - rewrite Z.max_r by lia. rewrite Q.max_r; [ring|].
    assert (inject_Z 0 <= inject_Z d)%Q by (rewrite <- Zle_Qle; lia).
    change (inject_Z 0) with 0%Q in *. lra.
Qed.

Lemma findings_of_severity_cons wanted f rest :
  findings_of_severity wanted (f :: rest) = Raises NoGetAttribute.
Proof. done. Qed.

Lemma finalize_confidence_bounds highs mediums st template :
  (0 <= finalize_confidence highs mediums st template
   /\ finalize_confidence highs mediums st template <= 1)%Q.
Proof.
  destruct (clamp_bounds (1 # 10) (95 # 100)
    (base_confidence + context_bonus st - severity_penalty highs mediums
     - iteration_penalty st template)) as [Hlo Hhi]; [lra|].
  unfold clamp in Hlo, Hhi. unfold finalize_confidence. lra.
Qed.

Lemma finalize_confidence_is_formula highs mediums st template :
  (finalize_confidence highs mediums st template
   == confidence_formula (len (st_context_gathered st)) (len highs) (len mediums)
        (st_current_iteration st) (max_iterations template))%Q.
Proof.
  unfold finalize_confidence, confidence_formula, clamp, base_confidence,
    context_bonus, severity_penalty, iteration_penalty.
  rewrite iteration_penalty_scaled.
  apply Q.max_compat; [reflexivity|]. apply Q.min_compat; [reflexivity|].
  rewrite (Qmult_comm (inject_Z (len (st_context_gathered st)))). ring.
Qed.

Lemma finalize_confidence_spec st template :
  st_findings st = [] ->
  (finalize_confidence [] [] st template == spec_confidence st template)%Q.
Proof.
  intros Hnone. rewrite finalize_confidence_is_formula.
  unfold spec_confidence, count_severity. by rewrite Hnone.
Qed.

Lemma finalize_verdict_rule highs mediums st :
  finalize_verdict highs mediums st
  = if bool_decide (highs <> []) then FAIL
    else if bool_decide (mediums <> []) then WARN
    else if bool_decide (st_findings st <> []) then NEEDS_WORK
    else PASS.
Proof.
  unfold finalize_verdict.
  destruct highs; [|done]. destruct mediums; [|done]. by destruct (st_findings st).
Qed.

Lemma finalize_summary_length highs mediums st template :
  (10 <= String.length (finalize_summary highs mediums st template))%nat.
Proof.
  unfold finalize_summary. cbv zeta.
  case_match; rewrite ?length_app; simpl; lia.
Qed.

(** Without findings the [try] body goes through. *)
Lemma finalize_try_without_findings st template :
  1 <= st_current_iteration st -> st_findings st = [] ->
  finalize_try st template =
    Returns {| verdict := PASS;
               confidence := finalize_confidence [] [] st template;
               summary := finalize_summary [] [] st template;
               specialty := st_specialty st;
               findings := [];
               context_gathered := st_context_gathered st;
               iterations_used := st_current_iteration st;
               needs_more_context := false |}.
Proof.
  intros Hit Hnone.
  unfold finalize_try, high_severity_findings, medium_severity_findings.
  rewrite Hnone. cbn [findings_of_severity mbind outcome_bind].
  unfold make_ReviewAgentVerdict.
  destruct (finalize_confidence_bounds [] [] st template) as [Hc0 Hc1].
  rewrite (Qleb_dec_true _ _ Hc0), (Qleb_dec_true _ _ Hc1). cbn [andb negb].
  destruct (Nat.ltb_spec (String.length (finalize_summary [] [] st template)) 10) as [Hs|_].
  { pose proof (finalize_summary_length [] [] st template). lia. }
  destruct (Z.ltb_spec (st_current_iteration st) 1); [lia|].
  unfold finalize_verdict. by rewrite Hnone.
Qed.

(** With a finding the first comprehension raises. *)
Lemma finalize_try_with_findings st template :
  st_findings st <> [] -> finalize_try st template = Raises NoGetAttribute.
Proof.
  intros Hsome. unfold finalize_try, high_severity_findings.
  destruct (st_findings st) as [|f rest]; [done|].
  by rewrite findings_of_severity_cons.
Qed.

Lemma error_report_returns st text :
  1 <= st_current_iteration st ->
  make_ReviewAgentVerdict NEEDS_WORK (1 # 10) ("Review completed with error: " +:+ text)
    (st_specialty st) [] (st_context_gathered st) (st_current_iteration st) false
  = Returns {| verdict := NEEDS_WORK; confidence := 1 # 10;
               summary := "Review completed with error: " +:+ text;
               specialty := st_specialty st; findings := [];
               context_gathered := st_context_gathered st;
               iterations_used := st_current_iteration st;
               needs_more_context := false |}.
Proof.
  intros Hit. unfold make_ReviewAgentVerdict.
  change (Qleb_dec 0 (1 # 10) && Qleb_dec (1 # 10) 1) with true. cbn [negb].
  destruct (Nat.ltb_spec (String.length ("Review completed with error: " +:+ text)) 10)
    as [Hs|_].
  { simpl in Hs. lia. }
  destruct (Z.ltb_spec (st_current_iteration st) 1); [lia | done].
Qed.

(** The report of a state without findings, and of a state with some. *)
Lemma finalize_without_findings st template :
  1 <= st_current_iteration st -> st_findings st = [] ->
  _review_agent_finalize st template =
    Returns {| verdict := PASS;
               confidence := finalize_confidence [] [] st template;
               summary := finalize_summary [] [] st template;
               specialty := st_specialty st;
               findings := [];
               context_gathered := st_context_gathered st;
               iterations_used := st_current_iteration st;
               needs_more_context := false |}.
Proof.
  intros Hit Hnone. unfold _review_agent_finalize.
  by rewrite (finalize_try_without_findings st template Hit Hnone).
Qed.

Lemma finalize_with_findings st template :
  1 <= st_current_iteration st -> st_findings st <> [] ->
  _review_agent_finalize st template =
    Returns {| verdict := NEEDS_WORK; confidence := 1 # 10;
               summary := "Review completed with error: "
                          +:+ "'Finding' object has no attribute 'get'";
               specialty := st_specialty st; findings := [];
               context_gathered := st_context_gathered st;
               iterations_used := st_current_iteration st;
               needs_more_context := false |}.
Proof.
  intros Hit Hsome. unfold _review_agent_finalize.
  rewrite (finalize_try_with_findings st template Hsome).
  by apply error_report_returns.
Qed.

Lemma finalize_returns st template :
  1 <= st_current_iteration st ->
  exists report, _review_agent_finalize st template = Returns report.
Proof.
  intros Hit. destruct (st_findings st) as [|f rest] eqn:Hfs.
  - eexists. by apply finalize_without_findings.
  - eexists. apply finalize_with_findings; [done|]. by rewrite Hfs.
Qed.

Lemma filter_nil_iff_not_Exists {A} (P : A -> Prop) `{!forall x, Decision (P x)} (l : list A) :
  filter P l = [] <-> ~ Exists P l.
Proof.
  induction l as [|x l IH]; simpl.
  - split; [intros _ Hex; inversion Hex | done].
  - rewrite filter_cons. destruct (decide (P x)) as [Hx|Hx].
    + split; [done | intros Hn; destruct Hn; by left].
    + rewrite IH. split.
      * intros Hn Hex. inversion Hex; subst; auto.
      * intros Hn Hex. apply Hn. by right.
Qed.

Lemma spec_verdict_needs_work fs :
  fs <> [] -> (spec_verdict fs = NEEDS_WORK <-> Forall (fun f => severity f = low) fs).
Proof.
  intros Hsome. unfold spec_verdict.
  case_bool_decide as Hh.
  { split; [done|]. intros Hall. exfalso.
    apply Exists_exists in Hh as (f & Hin & Hf).
    rewrite Forall_forall in Hall. specialize (Hall f Hin). congruence. }
  case_bool_decide as Hm.
  { split; [done|]. intros Hall. exfalso.
    apply Exists_exists in Hm as (f & Hin & Hf).
    rewrite Forall_forall in Hall. specialize (Hall f Hin). congruence. }
  rewrite bool_decide_eq_true_2 by done. split; [|done]. intros _.
  apply Forall_forall. intros f Hin.
  destruct (severity f) eqn:Hf; [| |done].
  - destruct Hh. apply Exists_exists. by exists f.
  - destruct Hm. apply Exists_exists. by exists f.
Qed.

(** C6, as the code has it.  The specified formula is what the [try]
    body computes from the two lists of high and medium findings it builds.
    But it builds them with [f.get('severity')], which a [Finding] object
    does not have: for a state without findings the report's confidence is
    the specified formula (in exact rational arithmetic); for a state with at
    least one finding the [except] branch answers, and the confidence is 0.1
    whatever the formula gives, the report carrying no findings and the
    error text. *)
Theorem finalize_confidence_lost_with_findings st template :
  1 <= st_current_iteration st ->
  (forall highs mediums,
     (finalize_confidence highs mediums st template
      == confidence_formula (len (st_context_gathered st)) (len highs) (len mediums)
           (st_current_iteration st) (max_iterations template))%Q)
  /\ exists report,
       _review_agent_finalize st template = Returns report
       /\ (st_findings st = [] -> (confidence report == spec_confidence st template)%Q)
       /\ (st_findings st <> [] ->
           confidence report = 1 # 10
           /\ findings report = []
           /\ summary report
              = "Review completed with error: 'Finding' object has no attribute 'get'").
Proof.
  intros Hit.
  split; [intros highs mediums; apply finalize_confidence_is_formula|].
  destruct (st_findings st) as [|f rest] eqn:Hfs.
  - eexists. split; [by apply finalize_without_findings|].
    split; [|done]. intros _. cbn [confidence]. by apply finalize_confidence_spec.
  - eexists. split; [apply finalize_with_findings; [done | by rewrite Hfs]|].
    split; [done|]. intros _. done.
Qed.

(** C7, as the code has it.  The specified rule is what the [try] body
    applies to the two lists of high and medium findings, but building them
    raises as soon as there is a finding, so the severities never reach the
    verdict: a state without findings gets PASS, and a state with at least
    one finding gets the [except] branch's NEEDS_WORK with an empty findings
    list, whatever the severities are.  The verdict agrees with the specified
    rule exactly when every finding is of low severity. *)
Theorem finalize_verdict_ignores_severity st template :
  1 <= st_current_iteration st ->
  (forall highs mediums,
     finalize_verdict highs mediums st
     = if bool_decide (highs <> []) then FAIL
       else if bool_decide (mediums <> []) then WARN
       else if bool_decide (st_findings st <> []) then NEEDS_WORK
       else PASS)
  /\ exists report,
       _review_agent_finalize st template = Returns report
       /\ verdict report = (if bool_decide (st_findings st = []) then PASS else NEEDS_WORK)
       /\ findings report = []
       /\ (verdict report = spec_verdict (st_findings st)
           <-> Forall (fun f => severity f = low) (st_findings st)).
Proof.
  intros Hit.
  split; [intros highs mediums; apply finalize_verdict_rule|].
  destruct (st_findings st) as [|f rest] eqn:Hfs.
  - eexists. split; [by apply finalize_without_findings|].
    cbn [verdict findings]. rewrite bool_decide_eq_true_2 by done.
    split; [done|]. split; [done|]. split; [constructor | done].
  - eexists. split; [apply finalize_with_findings; [done | by rewrite Hfs]|].
    cbn [verdict findings]. rewrite bool_decide_eq_false_2 by done.
    split; [done|]. split; [done|].
    rewrite <- (spec_verdict_needs_work (f :: rest)) by done.
    split; intros Heq; by rewrite Heq.
Qed.

End Finalize.

(** ** Orchestrator: aggregation of verdicts *)

Section Aggregation.
Import Schemas Orchestrator SpecWords.

Lemma needs_attention_elem_of r :
  verdict r ∈ [FAIL; NEEDS_WORK; WARN] <-> needs_attention r.
Proof.
  unfold needs_attention. rewrite !elem_of_cons, elem_of_nil. tauto.
Qed.

Lemma not_needs_attention r : ~ needs_attention r <-> verdict r = PASS.
Proof. unfold needs_attention. destruct (verdict r); intuition congruence. Qed.

Lemma any_needs_work_cases V :
  (any_needs_work V = "NEEDS_WORK" /\ Exists needs_attention V)
  \/ (any_needs_work V = "PASS" /\ Forall (fun r => verdict r = PASS) V).
Proof.
  induction V as [|r V IH]; simpl.
  - right. split; [done | constructor].
  - case_bool_decide as Hr.
    + left. split; [done|]. left. by apply needs_attention_elem_of.
    + rewrite needs_attention_elem_of, not_needs_attention in Hr.
      destruct IH as [[-> Hex]|[-> Hall]].
      * left. split; [done | by right].
      * right. split; [done | by constructor].
Qed.

Lemma Exists_attention_not_all_pass V :
  Exists needs_attention V -> Forall (fun r => verdict r = PASS) V -> False.
Proof.
  intros Hex Hall. apply Exists_exists in Hex as (r & Hin & Hr).
  rewrite Forall_forall in Hall. apply not_needs_attention in Hr; [done|].
  by apply Hall.
Qed.

(** C4. For every list of verdicts V the aggregation returns NO_REVIEW iff V
    is empty, PASS iff V is non-empty and every verdict is PASS, and
    NEEDS_WORK iff some verdict is FAIL, NEEDS_WORK or WARN; it returns
    nothing else. *)
Theorem determine_overall_verdict_law (V : list ReviewAgentVerdict) :
  (_determine_overall_verdict V = "NO_REVIEW" <-> V = [])
  /\ (_determine_overall_verdict V = "PASS"
      <-> V <> [] /\ Forall (fun r => verdict r = PASS) V)
  /\ (_determine_overall_verdict V = "NEEDS_WORK" <-> Exists needs_attention V)
  /\ _determine_overall_verdict V ∈ ["NO_REVIEW"; "PASS"; "NEEDS_WORK"].
Proof.
  destruct V as [|r V].
  - simpl. repeat split; try done.
    + intros [? _]. done.
    + intros Hex. inversion Hex.
    + set_solver.
  - unfold _determine_overall_verdict.
    destruct (any_needs_work_cases (r :: V)) as [[-> Hex]|[-> Hall]].
    + repeat split; try done.
      * intros [_ Hall]. destruct (Exists_attention_not_all_pass _ Hex Hall).
      * set_solver.
    + repeat split; try done.
      * intros Hex. destruct (Exists_attention_not_all_pass _ Hex Hall).
      * set_solver.
Qed.

End Aggregation.

(** ** Orchestrator: one report per planned specialist *)

Section RunReviewAgents.
Import Schemas Orchestrator.
Context `{!AgentRuntime}.

Lemma foldl_process_result_reports results acc :
  upd_review_agent_reports (foldl process_result acc results)
  = upd_review_agent_reports acc ++ map report results.
Proof.
  revert acc. induction results as [|r results IH]; intros acc; simpl.
  - by rewrite app_nil_r.
  - rewrite IH. simpl. by rewrite <- app_assoc.
Qed.

Lemma run_review_agents_reports state :
  upd_review_agent_reports (run_review_agents state)
  = map (fun agent => report (_run_single_agent agent state))
        (default [] (orchestrator_plan state)).
Proof.
  unfold run_review_agents. rewrite foldl_process_result_reports. simpl.
  by rewrite map_map.
Qed.

(** C5. For every planned roster, whatever each specialist's run does,
    [run_review_agents] returns exactly one report per planned specialty, in
    roster order; the slot of a specialist that timed out holds a WARN report
    of confidence 0.1 whose summary notes the timeout, the slot of one that
    raised holds a NEEDS_WORK report of confidence 0.1 carrying the error
    text, and every other slot holds that specialist's own report. *)
Theorem run_review_agents_one_report_each state i agent :
  default [] (orchestrator_plan state) !! i = Some agent ->
  let reports := upd_review_agent_reports (run_review_agents state) in
  length reports = length (default [] (orchestrator_plan state))
  /\ exists r, reports !! i = Some r
     /\ match run_subgraph agent state with
        | TimedOut =>
          verdict r = WARN /\ confidence r = 1 # 10 /\ specialty r = agent
          /\ summary r = "Agent " +:+ specialty_name agent +:+ " timed out during execution"
        | Failed e =>
          verdict r = NEEDS_WORK /\ confidence r = 1 # 10 /\ specialty r = agent
          /\ summary r = "Agent " +:+ specialty_name agent +:+ " failed: " +:+ e
        | Completed result => r = report_of_result agent result
        end.
Proof.
  intros Hi reports. subst reports. rewrite run_review_agents_reports.
  split; [by rewrite length_map|].
  exists (report (_run_single_agent agent state)). split.
  - by rewrite list_lookup_fmap, Hi.
  - unfold _run_single_agent. destruct (run_subgraph agent state); simpl; done.
Qed.

End RunReviewAgents.

(** ** Orchestrator: load_memory *)

Section LoadMemory.
Import Schemas Orchestrator SpecWords.
Context `{!Environment}.

Lemma find_similar_prs_returns state :
  exists found, _find_similar_prs state = Returns found
    /\ (similar_lookup_fails -> found = []).
Proof.
  unfold _find_similar_prs, similar_lookup_fails.
  destruct (negb asyncpg_available || _ || _); [by eexists|].
  eexists; split; [done|].
  destruct db_session as [e|fetch close]; [done|].
  intros [[e ->]|[e ->]]; simpl; [by destruct close | done].
Qed.

Lemma foldl_load_convention_file files conventions :
  foldl load_convention_file conventions files
  = conventions ++ omap derived_convention files.
Proof.
  revert conventions. induction files as [|file_path files IH]; intros conventions.
  - cbn. by rewrite app_nil_r.
  - cbn [foldl omap list_omap]. rewrite IH.
    unfold load_convention_file, derived_convention.
    destruct (probe_file file_path); [done | | done].
    by rewrite <- app_assoc.
Qed.

Lemma load_repo_conventions_derived state :
  _load_repo_conventions state
  = Returns (default_conventions ++ omap derived_convention potential_files).
Proof. unfold _load_repo_conventions. by rewrite foldl_load_convention_file. Qed.

Lemma load_repo_conventions_unreadable state :
  conventions_unreadable ->
  _load_repo_conventions state = Returns default_conventions.
Proof.
  intros Hbad. unfold _load_repo_conventions, potential_files, load_convention_file.
  simpl.
  destruct (Hbad ".github/CONTRIBUTING.md") as [? ->]; [set_solver|].
  destruct (Hbad "AGENTS.md") as [? ->]; [set_solver|].
  destruct (Hbad "CONTRIBUTING.md") as [? ->]; [set_solver|].
  done.
Qed.

End LoadMemory.

Section LoadMemoryUpdate.
Import Schemas Orchestrator SpecWords.

Lemma load_memory_returns `{!Environment} state :
  exists found loaded,
    _find_similar_prs state = Returns found
    /\ _load_repo_conventions state = Returns loaded
    /\ load_memory state =
       Returns {| upd_repo_memory :=
                    if bool_decide (repo_memory state = ∅)
                    then Some initial_repo_memory else None;
                  upd_similar_prs :=
                    match similar_prs state with
                    | [] => Some (if learning_enabled then found else [])
                    | _ :: _ => None
                    end;
                  upd_repo_conventions :=
                    match repo_conventions state with
                    | [] => Some loaded
                    | _ :: _ => None
                    end |}.
Proof.
  destruct (find_similar_prs_returns state) as (found & Hfound & _).
  exists found, (foldl load_convention_file default_conventions potential_files).
  split; [done|]. split; [done|].
  unfold load_memory. rewrite Hfound. unfold _load_repo_conventions.
  destruct (similar_prs state), (repo_conventions state), learning_enabled; done.
Qed.

(** C9, as the code has it.  [load_memory] always returns; when
    [repo_memory], [similar_prs] and [repo_conventions] are all non-empty the
    update holds none of them and merging it leaves the state as it was; a
    failing similar-PR lookup yields the empty list; and the conventions
    loaded for a state without any are the three built-in ones followed by
    one line for each convention file that can be read, in the order of the
    files: a file that is absent or cannot be read is skipped and the others
    are still loaded, so the list is never empty, and it is the three
    built-in ones when no file can be read. *)
Theorem load_memory_frame_and_degradation `{!Environment} state :
  exists u, load_memory state = Returns u
  /\ (repo_memory state <> ∅ -> similar_prs state <> [] -> repo_conventions state <> [] ->
      u = {| upd_repo_memory := None; upd_similar_prs := None;
             upd_repo_conventions := None |}
      /\ merge_memory state u = state)
  /\ (similar_prs state = [] -> similar_lookup_fails -> upd_similar_prs u = Some [])
  /\ (repo_conventions state = [] ->
      upd_repo_conventions u
      = Some (default_conventions ++ omap derived_convention potential_files)
      /\ upd_repo_conventions u <> Some []
      /\ (conventions_unreadable -> upd_repo_conventions u = Some default_conventions)).
Proof.
  destruct (load_memory_returns state) as (found & loaded & Hf & Hl & ->).
  eexists; split; [done|]. simpl. split; [|split].
  - intros Hmemory Hsimilar Hconventions. split.
    + rewrite bool_decide_eq_false_2 by done.
      destruct (similar_prs state), (repo_conventions state); done.
    + rewrite bool_decide_eq_false_2 by done.
      destruct (similar_prs state), (repo_conventions state); try done.
      by destruct state.
  - intros -> Hfail. f_equal.
    destruct (find_similar_prs_returns state) as (found' & Hf' & Hnil).
    rewrite Hf in Hf'. injection Hf' as ->. rewrite (Hnil Hfail).
    by destruct learning_enabled.
  - intros ->. rewrite load_repo_conventions_derived in Hl. injection Hl as <-.
    split; [done|]. split; [done|].
    intros Hbad. pose proof (load_repo_conventions_unreadable state Hbad) as Hall.
    rewrite load_repo_conventions_derived in Hall. by injection Hall as ->.
Qed.

End LoadMemoryUpdate.

(** ** Workflow queue *)

Section Queue.
Import WorkflowQueue SpecWords.
Context `{!Library}.

Lemma hgetall_hset_eq s key mapping :
  hgetall (hset s key mapping) key = mapping ∪ hgetall s key.
Proof. unfold hgetall at 1, hset. simpl. by rewrite lookup_insert_eq. Qed.

Lemma hgetall_hset_ne s key key' mapping :
  key <> key' -> hgetall (hset s key mapping) key' = hgetall s key'.
Proof. intros Hne. unfold hgetall, hset. simpl. by rewrite lookup_insert_ne. Qed.


Lemma is_active_spec data :
  is_active data = true
  <-> data !! "status" = Some (Text "pending") \/ data !! "status" = Some (Text "in_progress").
Proof.
  unfold is_active. rewrite andb_true_iff, !bool_decide_eq_true.
  rewrite !elem_of_cons, elem_of_nil. split.
  - intros [_ [?|[?|[]]]]; auto.
  - intros Hst. split; [|tauto].
    intros ->. rewrite lookup_empty in Hst. by destruct Hst.
Qed.

Lemma request_key_inj id id' : _get_request_key id = _get_request_key id' -> id = id'.
Proof. unfold _get_request_key. apply String.app_inj. Qed.

Lemma request_data_not_encodable id request : encodable (request_data id request) = false.
Proof.
  unfold encodable. apply bool_decide_eq_false_2. intros Hall.
  apply (Hall "result" PyNone); done.
Qed.

(** C2, as the code has it.  The id is the md5 digest of "<type>:<params
    serialized with sorted keys>", so it depends on the request type and
    params alone, and the records of different ids are kept under different
    keys.  When a record with that id is pending or in_progress, [enqueue]
    returns the id and leaves the store as it was.  Otherwise the mapping it
    hands to HSET carries ['result': None], which the client refuses to
    encode: the call raises [DataError] at that point, before the push and
    the expiry, so no record is stored, nothing is queued and no
    time-to-live is set. *)
Theorem enqueue_stores_nothing s request :
  let id := md5_hexdigest (request_type_name (request_type request) +:+ ":"
                           +:+ json_dumps true (params request)) in
  _generate_request_id request = id
  /\ (forall other,
        request_type other = request_type request -> params other = params request ->
        _generate_request_id other = id)
  /\ (forall id', _get_request_key id' = _get_request_key id -> id' = id)
  /\ (active s id -> enqueue s request = (Returns id, s))
  /\ (~ active s id -> enqueue s request = (Raises DataError, s)).
Proof.
  intros id. split; [done|]. split.
  { intros other Ht Hp. unfold _generate_request_id. by rewrite Ht, Hp. }
  split; [intros id' Hkey; by apply request_key_inj|].
  unfold enqueue. change (_generate_request_id request) with id. split.
  - intros Hact%is_active_spec. by rewrite Hact.
  - intros Hn. destruct (is_active (hgetall s (_get_request_key id))) eqn:Hact.
    { apply is_active_spec in Hact. done. }
    unfold client_hset. by rewrite request_data_not_encodable.
Qed.

Lemma get_request_status_after_mark id s c :
  get_request_status (apply_mark id s c) id = Returns (Some (status_name (target c))).
Proof.
  unfold get_request_status.
  assert (Hst : hgetall (apply_mark id s c) (_get_request_key id) !! "status"
                = Some (Text (status_name (target c)))).
  { destruct c; simpl; unfold mark_in_progress, mark_completed, mark_failed;
      rewrite hgetall_hset_eq; apply lookup_union_Some_l; done. }
  rewrite Hst. rewrite bool_decide_eq_false_2; [done|].
  intros Hempty. rewrite Hempty, lookup_empty in Hst. done.
Qed.

Lemma status_trace_targets id s calls :
  status_trace id s calls
  = get_request_status s id
    :: map (fun c => Returns (Some (status_name (target c)))) calls.
Proof.
  revert s. induction calls as [|c calls IH]; intros s; simpl; [done|].
  f_equal. destruct calls as [|c' calls].
  - simpl. by rewrite get_request_status_after_mark.
  - rewrite IH. by rewrite get_request_status_after_mark.
Qed.

(** C3, as the code has it.  The three lifecycle operations check nothing:
    each overwrites the status with its own target, so the observable status
    sequence is the initial status followed by the targets of the calls in
    call order.  It is a subsequence of pending -> in_progress -> {completed
    | failed} when the calls come in the worker's order on a pending
    record. *)
Theorem mark_calls_overwrite_status id s calls :
  status_trace id s calls
  = get_request_status s id
    :: map (fun c => Returns (Some (status_name (target c)))) calls
  /\ (get_request_status s id = Returns (Some "pending") -> worker_order calls ->
      lifecycle_monotone (omap observed (status_trace id s calls)) = true).
Proof.
  split; [apply status_trace_targets|].
  intros Hpending Horder. rewrite status_trace_targets, Hpending.
  destruct Horder as [->|[->|(c & Hc & ->)]]; [done | done |].
  destruct c; done.
Qed.



End Queue.

(** ** Specialist subgraph: the iterate-or-finalize loop *)

Section Subgraph.
Import Schemas Prompts AgentFactory SpecWords.
Context `{!ReasoningBackend} `{!ContextTools} `{!ExceptionText ValidationError}.

(** The conditional edge: back to spawn_context iff more context is wanted
    and the iteration counter is below the specialty's maximum; finalize
    otherwise. *)
Lemma after_analyze_spec template s :
  (after_analyze template s = spawn_context
   <-> st_needs_more_context s = true
       /\ st_current_iteration s < max_iterations template)
  /\ (after_analyze template s <> spawn_context -> after_analyze template s = finalize).
Proof.
  unfold after_analyze.
  destruct (st_needs_more_context s); simpl;
    destruct (Z.ltb_spec (st_current_iteration s) (max_iterations template));
    split; try done; intuition (try done; try lia).
Qed.

Lemma invoke_and_cache_returns iter req key g :
  exists g', invoke_and_cache false iter req key g = Returns g'.
Proof.
  unfold invoke_and_cache. destruct (context_agent _ _ _); by eexists.
Qed.

Lemma resolve_request_returns iter g req :
  exists g', resolve_request false iter g req = Returns g'.
Proof.
  unfold resolve_request.
  destruct (cache g ≫= _); [by eexists|].
  destruct (redis_lookup _ _); [by eexists|].
  apply invoke_and_cache_returns.
Qed.

Lemma resolve_all_returns iter reqs g :
  exists g', resolve_all false iter g reqs = Returns g'.
Proof.
  revert g. induction reqs as [|req reqs IH]; intros g; simpl; [by eexists|].
  destruct (resolve_request_returns iter g req) as [g1 ->]. simpl. apply IH.
Qed.

(** Without fail-fast the spawn_context node never raises. *)
Lemma spawn_context_returns st w :
  exists g, _spawn_context_agents false st w = Returns g.
Proof. apply resolve_all_returns. Qed.




Lemma execute_at_END template limit r :
  node r = END -> execute template limit r = ([], Returns r).
Proof.
  intros Hend. destruct limit as [|limit]; [done|]. cbn [execute].
  by destruct (decide (node r = END)).
Qed.

(** For a specialty whose maximum is 2 the counter, already 2 after plan,
    closes the guard at once: the run is plan, spawn_context, analyze,
    finalize, with a single analyze, whatever the analysis answers. *)
Lemma single_analyze_when_max_is_two agent w n :
  max_iterations (REVIEW_AGENT_TEMPLATES agent) = 2 ->
  exists r',
    execute (REVIEW_AGENT_TEMPLATES agent) (4 + n) (start agent w)
      = ([plan; spawn_context; analyze; finalize], Returns r')
    /\ node r' = END.
Proof.
  intros Hmax. set (T := REVIEW_AGENT_TEMPLATES agent) in *.
  set (s1 := merge_plan (initial_agent_state agent)
               (_review_agent_plan (initial_agent_state agent))).
  assert (Hit1 : st_current_iteration s1 = 2).
  { subst s1. unfold _review_agent_plan. by destruct (plan_reply _). }
  destruct (spawn_context_returns (spawn_view s1) w) as [g Hg].
  set (s2 := merge_spawn s1 g).
  set (s3 := merge_analyze s2 (_review_agent_analyze s2)).
  assert (Hit3 : st_current_iteration s3 = 2) by done.
  assert (Hroute : after_analyze T s3 = finalize).
  { unfold after_analyze. rewrite Hit3, Hmax.
    by destruct (st_needs_more_context s3). }
  assert (Hfin : 1 <= st_current_iteration s3) by lia.
  destruct (finalize_returns s3 T Hfin) as [report Hreport].
  eexists. split.
  - change (4 + n)%nat with (S (S (S (S n)))). cbn [execute].
    destruct (decide (node (start agent w) = END)) as [|_]; [done|].
    assert (step T (start agent w)
            = Returns {| node := spawn_context; state := s1; outside := w |})
      as -> by done.
    destruct (decide (spawn_context = END)) as [|_]; [done|].
    assert (step T {| node := spawn_context; state := s1; outside := w |}
            = Returns {| node := analyze; state := s2; outside := world g |}) as ->.
    { unfold step. cbn [node state outside]. by rewrite Hg. }
    destruct (decide (analyze = END)) as [|_]; [done|].
    assert (step T {| node := analyze; state := s2; outside := world g |}
            = Returns {| node := finalize; state := s3; outside := world g |}) as ->.
    { unfold step. cbn [node state outside]. fold s3. by rewrite Hroute. }
    destruct (decide (finalize = END)) as [|_]; [done|].
    unfold step at 1. cbn [node state outside]. rewrite Hreport.
    rewrite execute_at_END by done. done.
  - done.
Qed.


End Subgraph.

(** ** Context resolution: the two caches *)

Section ContextCache.
Import Schemas Prompts AgentFactory SpecWords.
Context `{!ContextTools}.

Lemma resolve_request_memory_hit fail_fast iter g req c hit :
  cache g = Some c -> c !! make_cache_key req = Some hit ->
  resolve_request fail_fast iter g req
  = Returns {| gathered := gathered g ++ [hit]; cache := cache g; world := world g |}.
Proof. intros Hc Hhit. unfold resolve_request. rewrite Hc. simpl. by rewrite Hhit. Qed.

Lemma resolve_request_redis_hit fail_fast iter g req cached_data :
  cache g ≫= (fun c => c !! make_cache_key req) = None ->
  redis_lookup (world g) (make_cache_key req) = Some cached_data ->
  resolve_request fail_fast iter g req
  = Returns {| gathered := gathered g ++ [cached_data]; cache := cache g;
               world := world g |}.
Proof. intros Hmiss Hhit. unfold resolve_request. by rewrite Hmiss, Hhit. Qed.

Lemma resolve_request_miss fail_fast iter g req :
  cache g ≫= (fun c => c !! make_cache_key req) = None ->
  redis_lookup (world g) (make_cache_key req) = None ->
  resolve_request fail_fast iter g req
  = invoke_and_cache fail_fast iter req (make_cache_key req) g.
Proof. intros Hmiss Hredis. unfold resolve_request. by rewrite Hmiss, Hredis. Qed.

(** C8, as the code has it.  A hit in the in-memory cache (looked up first)
    or, failing that, in Redis (looked up second) ends the resolution with
    the cached record and without invoking the context agent or touching the
    world.  When a resolution misses both, the context agent returns and a
    cache is available, the record is cached, so that resolving the same key
    again before the TTL has elapsed returns that same record and invokes
    nothing: one invocation for the two resolutions. *)
Theorem context_cache_short_circuits fail_fast iter g req :
  let key := make_cache_key req in
  (forall c hit, cache g = Some c -> c !! key = Some hit ->
     resolve_request fail_fast iter g req
     = Returns {| gathered := gathered g ++ [hit]; cache := cache g; world := world g |})
  /\ (forall cached_data,
        cache g ≫= (fun c => c !! key) = None ->
        redis_lookup (world g) key = Some cached_data ->
        resolve_request fail_fast iter g req
        = Returns {| gathered := gathered g ++ [cached_data]; cache := cache g;
                     world := world g |})
  /\ (forall answer dt,
        cache g ≫= (fun c => c !! key) = None ->
        redis_lookup (world g) key = None ->
        context_agent (req_type req) (default [] (req_files req))
                      (default "" (req_query req)) = Returns answer ->
        caching_available g (built_item iter req answer) ->
        0 <= dt < _context_cache_ttl ->
        exists g1,
          resolve_request fail_fast iter g req = Returns g1
          /\ gathered g1 = gathered g ++ [built_item iter req answer]
          /\ tool_invocations (world g1) = tool_invocations (world g) ++ [key]
          /\ forall fail_fast' iter' seen,
               resolve_request fail_fast' iter'
                 {| gathered := seen; cache := cache g1;
                    world := elapse dt (world g1) |} req
               = Returns {| gathered := seen ++ [built_item iter req answer];
                            cache := cache g1; world := elapse dt (world g1) |}).
Proof.
  intros key. split; [|split].
  - intros c hit. apply resolve_request_memory_hit.
  - intros cached_data. apply resolve_request_redis_hit.
  - intros answer dt Hmiss Hredis Hagent Havail Hdt.
    rewrite (resolve_request_miss _ _ _ _ Hmiss Hredis).
    unfold invoke_and_cache. rewrite Hagent. fold key.
    change {| iteration := iter; context_type := req_type req;
              result := ContextFound (answer_context_found answer); failed := false;
              cost_usd := answer_cost answer; tokens := answer_tokens answer;
              cache_key := key |} with (built_item iter req answer).
    set (item := built_item iter req answer) in *.
    unfold caching_available in Havail. cbn [log_invocation redis_client].
    destruct (redis_client (world g)) as [r|] eqn:Hr.
    + destruct Havail as [Hup Hcodec]. unfold redis_setex. rewrite Hup.
      eexists. split; [done|]. cbn [gathered cache world].
      split; [done|]. split; [done|].
      intros fail_fast' iter' seen.
      destruct (cache g) as [c|] eqn:Hc.
      * rewrite (resolve_request_memory_hit _ _ _ _ (<[key:=item]> c) item);
          [done | done | apply lookup_insert_eq].
      * destruct Hcodec as [[? ?]|[Hne Hround]]; [done|].
        rewrite (resolve_request_redis_hit _ _ _ _ item); [done | done |].
        unfold redis_lookup, redis_get. cbn. fold key.
        rewrite lookup_insert_eq.
        destruct (Z.ltb_spec (clock (world g) + dt)
                    (clock (world g) + _context_cache_ttl)); [|lia].
        rewrite bool_decide_eq_false_2 by done. by rewrite Hround.
    + destruct Havail as [c Hc]. rewrite Hc.
      eexists. split; [done|]. cbn [gathered cache world].
      split; [done|]. split; [done|].
      intros fail_fast' iter' seen.
      rewrite (resolve_request_memory_hit _ _ _ _ (<[key:=item]> c) item);
        [done | done | apply lookup_insert_eq].
Qed.

End ContextCache.

(** ** The theorems at concrete inputs *)

Section Concrete.
Import Schemas Prompts AgentFactory Orchestrator WorkflowQueue SpecWords Examples.

(** The security specialist of [security_state] (one high, one low finding,
    no context, iteration 2 of 2): the specified formula gives 0.8 - 0.2 = 0.6,
    the node reports 0.1 and drops the findings. *)
Lemma finalize_confidence_lost_with_findings_witness :
  1 <= st_current_iteration security_state
  /\ st_findings security_state <> []
  /\ (spec_confidence security_state (REVIEW_AGENT_TEMPLATES security) == 6 # 10)%Q
  /\ exists report,
       _review_agent_finalize security_state (REVIEW_AGENT_TEMPLATES security)
         = Returns report
       /\ confidence report = 1 # 10
       /\ findings report = [].
Proof.
  assert (Hit : 1 <= st_current_iteration security_state) by done.
  assert (Hsome : st_findings security_state <> []) by done.
  split; [exact Hit|]. split; [exact Hsome|]. split; [vm_compute; reflexivity|].
  destruct (finalize_confidence_lost_with_findings security_state
              (REVIEW_AGENT_TEMPLATES security) Hit) as (_ & report & Hreport & _ & Hlost).
  destruct (Hlost Hsome) as (Hconfidence & Hfindings & _).
  exists report. exact (conj Hreport (conj Hconfidence Hfindings)).
Defined.

(** A state without findings does get the formula's value, here 0.8. *)
Example blank_specialist_confidence :
  exists report,
    _review_agent_finalize (initial_agent_state testing) (REVIEW_AGENT_TEMPLATES testing)
      = Returns report
    /\ (confidence report == 8 # 10)%Q /\ verdict report = PASS.
Proof. eexists. split; [reflexivity|]. split; [vm_compute; reflexivity | reflexivity]. Qed.

(** The same specialist's verdict: FAIL by the specified rule, NEEDS_WORK in
    the report. *)
Lemma finalize_verdict_ignores_severity_witness :
  1 <= st_current_iteration security_state
  /\ spec_verdict (st_findings security_state) = FAIL
  /\ exists report,
       _review_agent_finalize security_state (REVIEW_AGENT_TEMPLATES security)
         = Returns report
       /\ verdict report = NEEDS_WORK
       /\ findings report = [].
Proof.
  assert (Hit : 1 <= st_current_iteration security_state) by done.
  split; [exact Hit|]. split; [vm_compute; reflexivity|].
  destruct (finalize_verdict_ignores_severity security_state
              (REVIEW_AGENT_TEMPLATES security) Hit)
    as (_ & report & Hreport & Hverdict & Hfindings & _).
  exists report. exact (conj Hreport (conj Hverdict Hfindings)).
Defined.

(** Four planned specialists, the second of which times out: four reports,
    the second a WARN. *)
Lemma run_review_agents_one_report_each_witness :
  default [] (orchestrator_plan planned_state) !! 1%nat = Some security
  /\ length (upd_review_agent_reports (run_review_agents planned_state)) = 4%nat
  /\ exists r,
       upd_review_agent_reports (run_review_agents planned_state) !! 1%nat = Some r
       /\ verdict r = WARN /\ confidence r = 1 # 10 /\ specialty r = security
       /\ summary r = "Agent security timed out during execution".
Proof.
  split; [done|].
  exact (run_review_agents_one_report_each planned_state 1%nat security eq_refl).
Defined.


(** [load_memory] on a state whose three memory fields were supplied: the
    update is empty and the state is unchanged.  On a state without
    conventions, where the first convention file can be read, the second
    cannot and the third is absent: the three built-in conventions and the
    line derived from the first file. *)
Lemma load_memory_frame_and_degradation_witness :
  repo_memory supplied_state <> ∅
  /\ similar_prs supplied_state <> []
  /\ repo_conventions supplied_state <> []
  /\ (exists u, load_memory supplied_state = Returns u
        /\ u = {| upd_repo_memory := None; upd_similar_prs := None;
                  upd_repo_conventions := None |}
        /\ merge_memory supplied_state u = supplied_state)
  /\ exists u, @load_memory mixed_environment blank_state = Returns u
       /\ upd_repo_conventions u
          = Some (default_conventions
                  ++ ["Derived from .github/CONTRIBUTING.md: Keep pull requests small...."]).
Proof.
  assert (Hm : repo_memory supplied_state <> ∅).
  { intros Hempty.
    assert (Hl : repo_memory supplied_state !! "owner" = Some (PyStr "platform"))
      by apply lookup_singleton_eq.
    by rewrite Hempty in Hl. }
  split; [done|]. split; [done|]. split. { done. }
  split.
  - destruct (load_memory_frame_and_degradation supplied_state) as (u & Hu & Hframe & _).
    exists u. split; [done|]. apply Hframe; done.
  - destruct (@load_memory_frame_and_degradation mixed_environment blank_state)
      as (u & Hu & _ & _ & Hconventions).
    destruct (Hconventions eq_refl) as (Hlist & _).
    exists u. split; [exact Hu|]. rewrite Hlist. reflexivity.
Defined.

(** In the hostile environment nothing can be looked up: the similar-PR
    list degrades to the empty list, the conventions to the three built-in
    ones. *)
Example load_memory_hostile :
  exists u, load_memory blank_state = Returns u
    /\ upd_similar_prs u = Some []
    /\ upd_repo_conventions u = Some default_conventions.
Proof. eexists. split; [reflexivity|]. split; reflexivity. Qed.

(** C9, counterexample.  Every convention file is unreadable and the state
    has no conventions, yet the update's convention list is not empty. *)
Lemma unreadable_conventions_not_emptied :
  conventions_unreadable
  /\ repo_conventions blank_state = []
  /\ exists u, load_memory blank_state = Returns u
       /\ upd_repo_conventions u
          = Some [ "Use type hints for all public functions";
                   "Include docstrings for public APIs";
                   "Follow existing code style patterns" ]
       /\ upd_repo_conventions u <> Some [].
Proof.
  split; [intros p _; by eexists|]. split; [done|].
  eexists. split; [reflexivity|]. split; [reflexivity | done].
Qed.

(** Enqueueing [ci_request] into the empty store raises and stores
    nothing; into the store where it is queued, the id comes back. *)
Lemma enqueue_stores_nothing_witness :
  ~ active empty_redis ci_id
  /\ enqueue empty_redis ci_request = (Raises DataError, empty_redis)
  /\ active enqueued_redis ci_id
  /\ enqueue enqueued_redis ci_request = (Returns ci_id, enqueued_redis).
Proof.
  assert (Hfresh : ~ active empty_redis ci_id) by (intros [H|H]; vm_compute in H; done).
  assert (Hactive : active enqueued_redis ci_id) by (left; vm_compute; done).
  destruct (enqueue_stores_nothing empty_redis ci_request) as (_ & _ & _ & _ & Hnew).
  destruct (enqueue_stores_nothing enqueued_redis ci_request) as (_ & _ & _ & Hsame & _).
  exact (conj Hfresh (conj (Hnew Hfresh) (conj Hactive (Hsame Hactive)))).
Defined.

(** The worker's order on the enqueued request: pending, in_progress,
    completed. *)
Lemma mark_calls_overwrite_status_witness :
  get_request_status enqueued_redis ci_id = Returns (Some "pending")
  /\ worker_order [MarkInProgress; MarkCompleted [("status", JStr "completed")] 1700000090]
  /\ omap observed
       (status_trace ci_id enqueued_redis
          [MarkInProgress; MarkCompleted [("status", JStr "completed")] 1700000090])
     = [pending; in_progress; completed]
  /\ lifecycle_monotone
       (omap observed
          (status_trace ci_id enqueued_redis
             [MarkInProgress; MarkCompleted [("status", JStr "completed")] 1700000090]))
     = true.
Proof.
  assert (Hp : get_request_status enqueued_redis ci_id = Returns (Some "pending"))
    by (vm_compute; done).
  assert (Ho : worker_order
                 [MarkInProgress; MarkCompleted [("status", JStr "completed")] 1700000090]).
  { right. right. eexists. split; [|done]. done. }
  destruct (mark_calls_overwrite_status ci_id enqueued_redis
              [MarkInProgress; MarkCompleted [("status", JStr "completed")] 1700000090])
    as [Htrace Hmono].
  split; [done|]. split; [done|]. split.
  - rewrite Htrace, Hp. done.
  - exact (Hmono Hp Ho).
Defined.

(** C3, counterexample.  On the enqueued (pending) request, mark_completed
    followed by mark_in_progress: the observed statuses are pending,
    completed, in_progress, a backward step out of a terminal status. *)
Lemma completed_then_in_progress_goes_back :
  omap observed
    (status_trace ci_id enqueued_redis
       [MarkCompleted [("status", JStr "completed")] 1700000090; MarkInProgress])
  = [pending; completed; in_progress]
  /\ lifecycle_monotone [pending; completed; in_progress] = false.
Proof. split; vm_compute; done. Qed.


(** A record that mark_in_progress wrote after the original had expired has
    only a status field: parsing raises KeyError and the id is dropped. *)
Example get_next_request_drops_partial_record :
  let s := lpush (mark_in_progress empty_redis "0cc175b9c0f1b6a8") "0cc175b9c0f1b6a8" in
  (get_next_request s).1 = Returns None /\ queue (get_next_request s).2 = [].
Proof. vm_compute. done. Qed.


(** A state object with an in-memory cache and no Redis: the first
    resolution invokes the context agent once, the second, half an hour
    later, returns the cached record. *)
Lemma context_cache_short_circuits_witness :
  0 <= 1800 < _context_cache_ttl
  /\ caching_available memory_cached_start
       (built_item 2 history_request
          {| answer_context_found := "summary for auth"; answer_cost := 1 # 1000;
             answer_tokens := 50 |})
  /\ exists g1,
       resolve_request false 2 memory_cached_start history_request = Returns g1
       /\ tool_invocations (world g1) = ["git_history:auth:src/auth.py"]
       /\ resolve_request false 3
            {| gathered := []; cache := cache g1; world := elapse 1800 (world g1) |}
            history_request
          = Returns {| gathered := gathered g1; cache := cache g1;
                       world := elapse 1800 (world g1) |}.
Proof.
  assert (Hw : 0 <= 1800 < _context_cache_ttl) by done.
  assert (Hc : caching_available memory_cached_start
                 (built_item 2 history_request
                    {| answer_context_found := "summary for auth"; answer_cost := 1 # 1000;
                       answer_tokens := 50 |})) by (by eexists).
  destruct (context_cache_short_circuits false 2 memory_cached_start history_request)
    as (_ & _ & Hmiss).
  destruct (Hmiss _ 1800 eq_refl eq_refl eq_refl Hc Hw) as (g1 & Hg1 & Hgath & Hinv & Hagain).
  split; [done|]. split; [done|]. exists g1. split; [done|]. split; [done|].
  rewrite (Hagain false 3 []). by rewrite Hgath.
Defined.

(** C8, counterexample.  A [ReviewAgentState] carries no in-memory cache;
    with Redis unreachable at connection time nothing is cached, and
    resolving the same request twice, one second apart, invokes the context
    agent twice. *)
Lemma uncached_resolutions_invoke_twice :
  cache uncached_start = context_cache (spawn_view (initial_agent_state alignment))
  /\ 0 <= 1 < _context_cache_ttl
  /\ exists g1 g2,
       resolve_request false 2 uncached_start history_request = Returns g1
       /\ resolve_request false 2
            {| gathered := []; cache := cache g1; world := elapse 1 (world g1) |}
            history_request = Returns g2
       /\ tool_invocations (world g2)
          = ["git_history:auth:src/auth.py"; "git_history:auth:src/auth.py"].
Proof.
  split; [done|]. split; [done|].
  eexists _, _. split; [reflexivity|]. split; [reflexivity|]. done.
Qed.

End Concrete.

(** ** Workflow queue: lifecycle calls, waiting, the worker *)

Section QueueDelivery.
Import WorkflowQueue WorkflowWaiting SpecWords MoreWords.
Context `{!Library}.

Lemma get_next_request_pop s y rest :
  pop_right (queue s) = Some (y, rest) ->
  get_next_request s
  = (if bool_decide (y = "") then Returns None
     else if bool_decide (hgetall s (_get_request_key y) = ∅) then Returns None
     else delivered (parse_request (hgetall s (_get_request_key y))),
     {| hashes := hashes s; queue := rest; ttl := ttl s |}).
Proof.
  intros Hpop. unfold get_next_request, rpop. rewrite Hpop.
  change (hgetall {| hashes := hashes s; queue := rest; ttl := ttl s |} (_get_request_key y))
    with (hgetall s (_get_request_key y)).
  case_bool_decide; [done|]. case_bool_decide; [done|].
  unfold delivered. destruct (parse_request _) as [?|[]]; done.
Qed.

End QueueDelivery.

Section QueueLifecycle.
Import WorkflowQueue WorkflowWaiting WorkflowAgent SpecWords MoreWords.
Context `{!Library}.

Lemma apply_mark_hset id s c :
  apply_mark id s c = hset s (_get_request_key id) (written c).
Proof. by destruct c. Qed.

Lemma written_status c : written c !! "status" = Some (Text (status_name (target c))).
Proof. by destruct c. Qed.

Lemma hgetall_apply_mark id s c :
  hgetall (apply_mark id s c) (_get_request_key id)
  = written c ∪ hgetall s (_get_request_key id).
Proof. rewrite apply_mark_hset. unfold hgetall at 1, hset. cbn. by rewrite lookup_insert_eq. Qed.

(** The client accepts the mapping of every lifecycle call. *)
Lemma lifecycle_mappings_encodable id s c :
  client_hset s (_get_request_key id) (written c) = Returns (apply_mark id s c).
Proof.
  unfold client_hset. rewrite apply_mark_hset.
  assert (encodable (written c) = true) as ->; [|done].
  apply bool_decide_eq_true_2. intros name value Hlookup.
  destruct c; cbn [written] in Hlookup.
  - apply lookup_singleton_Some in Hlookup as [_ <-]. done.
  - apply elem_of_list_to_map_2 in Hlookup.
    rewrite !elem_of_cons, elem_of_nil in Hlookup.
    destruct Hlookup as [[= _ ->]|[[= _ ->]|[[= _ ->]|[]]]]; done.
  - apply elem_of_list_to_map_2 in Hlookup.
    rewrite !elem_of_cons, elem_of_nil in Hlookup.
    destruct Hlookup as [[= _ ->]|[[= _ ->]|[[= _ ->]|[]]]]; done.
Qed.

(** X4. The lifecycle calls do not look whether the record exists: on a
    missing record (never created, or expired) a call creates one holding
    only the fields it writes, with no time-to-live, leaving the queue as it
    was; [get_request_status] then reports the written status. *)
Theorem mark_on_missing_record s id c :
  hashes s !! _get_request_key id = None ->
  hgetall (apply_mark id s c) (_get_request_key id) = written c
  /\ ttl (apply_mark id s c) = ttl s
  /\ queue (apply_mark id s c) = queue s
  /\ get_request_status (apply_mark id s c) id
     = Returns (Some (status_name (target c))).
Proof.
  intros Hnone. rewrite hgetall_apply_mark. unfold hgetall. rewrite Hnone. cbn [default].
  rewrite (right_id_L ∅ (∪)). split; [done|].
  split; [by rewrite apply_mark_hset|]. split; [by rewrite apply_mark_hset|].
  apply get_request_status_after_mark.
Qed.

End QueueLifecycle.

Section Waiting.
Import WorkflowQueue WorkflowWaiting WorkflowAgent SpecWords MoreWords.
Context `{!Library}.

Lemma wait_loop_skips waiting observations id timeout :
  Forall (fun o => check_result o id = Returns None) waiting ->
  wait_loop (waiting ++ observations) id timeout = wait_loop observations id timeout.
Proof.
  induction 1 as [|o waiting Ho _ IH]; simpl; [done|]. by rewrite Ho.
Qed.

Lemma hgetall_mark_nonempty id s c :
  hgetall (apply_mark id s c) (_get_request_key id) <> ∅.
Proof.
  intros Hempty.
  assert (Hst : hgetall (apply_mark id s c) (_get_request_key id) !! "status"
                = Some (Text (status_name (target c)))).
  { rewrite hgetall_apply_mark. apply lookup_union_Some_l, written_status. }
  by rewrite Hempty, lookup_empty in Hst.
Qed.

Lemma check_result_completed s id result now :
  check_result (mark_completed s id result now) id
  = match json_loads (json_dumps false result) with
    | Some decoded => Returns (Some decoded)
    | None => Raises (Uncaught JSONDecodeError)
    end.
Proof.
  unfold check_result.
  rewrite bool_decide_eq_false_2
    by apply (hgetall_mark_nonempty id s (MarkCompleted result now)).
  pose proof (hgetall_apply_mark id s (MarkCompleted result now)) as Hdata.
  cbn [apply_mark] in Hdata. rewrite Hdata. unfold field_or.
  rewrite (lookup_union_Some_l _ _ "status" (Text "completed")) by done.
  rewrite bool_decide_eq_true_2 by done.
  by rewrite (lookup_union_Some_l _ _ "result" (Text (json_dumps false result))).
Qed.

Lemma check_result_failed s id error now :
  check_result (mark_failed s id error now) id
  = Raises (PlainException ("Workflow request failed: "
                            +:+ json_dumps false [("error", JStr error)])).
Proof.
  unfold check_result.
  rewrite bool_decide_eq_false_2
    by apply (hgetall_mark_nonempty id s (MarkFailed error now)).
  pose proof (hgetall_apply_mark id s (MarkFailed error now)) as Hdata.
  cbn [apply_mark] in Hdata. rewrite Hdata. unfold field_or.
  rewrite (lookup_union_Some_l _ _ "status" (Text "failed")) by done.
  rewrite bool_decide_eq_false_2 by done. rewrite bool_decide_eq_true_2 by done.
  by rewrite (lookup_union_Some_l _ _ "result"
                (Text (json_dumps false [("error", JStr error)]))).
Qed.

(** X6. What the worker stores is what the waiter gets: a waiter whose polls
    first find the request unfinished and then find the store as
    [mark_completed] left it returns the result that was stored, when the
    JSON codec reads it back; later changes of the store are not looked
    at. *)
Theorem wait_for_result_completed waiting s later id result now timeout :
  0 < default _timeout timeout ->
  Forall (fun o => check_result o id = Returns None) waiting ->
  json_loads (json_dumps false result) = Some result ->
  wait_for_result (waiting ++ mark_completed s id result now :: later) id timeout
  = Returns result.
Proof.
  intros Hpos Hwaiting Hjson. unfold wait_for_result.
  destruct (Z.leb_spec (default _timeout timeout) 0); [lia|].
  rewrite (wait_loop_skips _ _ _ _ Hwaiting). cbn [wait_loop].
  by rewrite check_result_completed, Hjson.
Qed.

(** X7. A waiter whose polls reach the store as [mark_failed] left it gets
    an exception whose message carries the stored error object; and one
    whose poll finds no record at all (it expired, or never existed) gets
    the not-found exception at that poll, not a timeout. *)
Theorem wait_for_result_raises waiting s later id timeout :
  0 < default _timeout timeout ->
  Forall (fun o => check_result o id = Returns None) waiting ->
  (forall error now,
     wait_for_result (waiting ++ mark_failed s id error now :: later) id timeout
     = Raises (PlainException ("Workflow request failed: "
                               +:+ json_dumps false [("error", JStr error)])))
  /\ (hgetall s (_get_request_key id) = ∅ ->
      wait_for_result (waiting ++ s :: later) id timeout
      = Raises (PlainException ("Request " +:+ id +:+ " not found"))).
Proof.
  intros Hpos Hwaiting. unfold wait_for_result.
  destruct (Z.leb_spec (default _timeout timeout) 0); [lia|]. split.
  - intros error now. rewrite (wait_loop_skips _ _ _ _ Hwaiting). cbn [wait_loop].
    by rewrite check_result_failed.
  - intros Hgone. rewrite (wait_loop_skips _ _ _ _ Hwaiting). cbn [wait_loop].
    unfold check_result. by rewrite bool_decide_eq_true_2.
Qed.

(** X8. With an effective timeout of zero or less the loop body never runs:
    the waiter raises the timeout error without looking at the store,
    whatever it holds, even when the result is already there. *)
Theorem wait_for_result_times_out observations id timeout :
  default _timeout timeout <= 0 ->
  wait_for_result observations id timeout
  = Raises (TimeoutError ("Workflow request " +:+ id +:+ " timed out after "
                          +:+ str_of_int (default _timeout timeout) +:+ " seconds")).
Proof.
  unfold wait_for_result. intros Hle.
  by destruct (Z.leb_spec (default _timeout timeout) 0); [|lia].
Qed.

End Waiting.

Section Worker.
Import WorkflowQueue WorkflowWaiting WorkflowAgent SpecWords MoreWords.
Context `{!Library} `{!Handlers}.

(** X10. A record that cannot be parsed for a reason the queue does not
    catch (a bad timestamp, an invalid literal, a None field) costs the
    worker one turn: the exception is swallowed by the loop, the id has left
    the queue, no lifecycle call is made, so the record keeps the status it
    had. *)
Theorem poisoned_record_is_skipped now s id rest e :
  pop_right (queue s) = Some (id, rest) ->
  id <> "" ->
  hgetall s (_get_request_key id) <> ∅ ->
  parse_request (hgetall s (_get_request_key id)) = Raises e ->
  e ∈ [ValueError; AttributeError; ValidationError] ->
  process_once now s = (LoopError e, {| hashes := hashes s; queue := rest; ttl := ttl s |})
  /\ get_request_status (process_once now s).2 id = get_request_status s id.
Proof.
  intros Hpop Hid Hrec Hparse He.
  assert (Hturn : process_once now s
                  = (LoopError e, {| hashes := hashes s; queue := rest; ttl := ttl s |})).
  { unfold process_once. rewrite (get_next_request_pop s id rest Hpop).
    rewrite !bool_decide_eq_false_2 by done. rewrite Hparse.
    rewrite !elem_of_cons, elem_of_nil in He.
    destruct He as [->|[->|[->|[]]]]; done. }
  split; [done|]. by rewrite Hturn.
Qed.

End Worker.

(** ** Tool resolution and the context agents *)

Section ToolResolution.
Import Schemas McpTools.
Context `{!PythonStrings}.

Lemma head_filter_Some {A} (P : A -> Prop) `{!forall x, Decision (P x)} (l : list A) x :
  head (filter P l) = Some x -> x ∈ l /\ P x.
Proof.
  intros Hhead. assert (Hin : x ∈ filter P l).
  { destruct (filter P l) as [|y l']; [done|]. injection Hhead as ->. left. }
  by apply list_elem_of_filter in Hin as [? ?].
Qed.

Lemma head_filter_None {A} (P : A -> Prop) `{!forall x, Decision (P x)} (l : list A) :
  head (filter P l) = None <-> forall x, x ∈ l -> ~ P x.
Proof.
  rewrite head_None. split.
  - intros Hnil x Hx HP. assert (Hin : x ∈ filter P l) by (by apply list_elem_of_filter).
    rewrite Hnil in Hin. by apply elem_of_nil in Hin.
  - intros Hnone. destruct (filter P l) as [|y l'] eqn:Hf; [done|].
    assert (Hy : y ∈ filter P l) by (rewrite Hf; left).
    apply list_elem_of_filter in Hy as [HP Hy]. destruct (Hnone y Hy HP).
Qed.

(** X11. [_resolve_mcp_tool] on a tool list: a tool it returns is one of the
    listed tools and either bears the requested name or a name starting with
    "<prefix>__"; a tool bearing the requested name is found whenever there
    is one, whatever prefix and match say; and it returns nothing exactly
    when no listed tool bears the name and none carries the prefix (a [None]
    or empty parameter counts as not given). *)
Theorem resolve_in_correct tools tool_name tool_prefix matching :
  (forall t, resolve_in tools tool_name tool_prefix matching = Some t ->
     t ∈ tools
     /\ (given tool_name = Some (name t)
         \/ exists pre, given tool_prefix = Some pre
                        /\ String.prefix (pre +:+ "__") (name t) = true))
  /\ (forall wanted t, given tool_name = Some wanted -> t ∈ tools -> name t = wanted ->
        exists t', resolve_in tools tool_name tool_prefix matching = Some t'
                   /\ name t' = wanted)
  /\ (resolve_in tools tool_name tool_prefix matching = None
      <-> (forall wanted t, given tool_name = Some wanted -> t ∈ tools -> name t <> wanted)
          /\ (forall pre t, given tool_prefix = Some pre -> t ∈ tools ->
                String.prefix (pre +:+ "__") (name t) <> true)).
Proof.
  unfold resolve_in, first_tool. split; [|split].
  - intros t. destruct (given tool_name) as [wanted|] eqn:Hname.
    + destruct (head (filter (fun t0 => name t0 = wanted) tools)) as [t0|] eqn:Hexact.
      * intros [= <-]. apply head_filter_Some in Hexact as [Hin Heq].
        split; [done|]. left. by rewrite Heq.
      * destruct (given tool_prefix) as [pre|]; [|done].
        destruct (given matching) as [m|].
        -- destruct (head (filter _ (filter _ tools))) as [t1|] eqn:Hm.
           ++ intros [= <-]. apply head_filter_Some in Hm as [Hin _].
              apply list_elem_of_filter in Hin as [Hpre Hin]. split; [done|]. right. eauto.
           ++ intros Hh. apply head_filter_Some in Hh as [Hin Hpre].
              split; [done|]. right. eauto.
        -- intros Hh. apply head_filter_Some in Hh as [Hin Hpre].
           split; [done|]. right. eauto.
    + destruct (given tool_prefix) as [pre|]; [|done].
      destruct (given matching) as [m|].
      * destruct (head (filter _ (filter _ tools))) as [t1|] eqn:Hm.
        -- intros [= <-]. apply head_filter_Some in Hm as [Hin _].
           apply list_elem_of_filter in Hin as [Hpre Hin]. split; [done|]. right. eauto.
        -- intros Hh. apply head_filter_Some in Hh as [Hin Hpre].
           split; [done|]. right. eauto.
      * intros Hh. apply head_filter_Some in Hh as [Hin Hpre].
        split; [done|]. right. eauto.
  - intros wanted t -> Hin Heq.
    destruct (head (filter (fun t0 => name t0 = wanted) tools)) as [t0|] eqn:Hexact.
    + exists t0. split; [done|]. by apply head_filter_Some in Hexact as [_ ?].
    + exfalso. rewrite head_filter_None in Hexact. by apply (Hexact t).
  - split.
    + intros Hnone. split.
      * intros wanted t Hname Hin Heq. rewrite Hname in Hnone.
        destruct (head (filter (fun t0 => name t0 = wanted) tools)) eqn:Hexact; [done|].
        rewrite head_filter_None in Hexact. by apply (Hexact t).
      * intros pre t Hpre Hin Hstarts. rewrite Hpre in Hnone.
        assert (Hhead : head (filter (fun t0 => String.prefix (pre +:+ "__") (name t0) = true)
                                tools) = None).
        { destruct (match given tool_name with Some _ => _ | None => _ end); [done|].
          destruct (match given matching with Some _ => _ | None => _ end); done. }
        rewrite head_filter_None in Hhead. by apply (Hhead t).
    + intros [Hname Hpre].
      assert (Hexact : match given tool_name with
                       | Some wanted => head (filter (fun t0 => name t0 = wanted) tools)
                       | None => None
                       end = None).
      { destruct (given tool_name) as [wanted|]; [|done].
        apply head_filter_None. intros t Hin. by apply (Hname wanted). }
      rewrite Hexact. destruct (given tool_prefix) as [pre|]; [|done].
      assert (Hnil : filter (fun t0 => String.prefix (pre +:+ "__") (name t0) = true) tools
                     = []).
      { apply head_None, head_filter_None. intros t Hin. by apply (Hpre pre). }
      rewrite Hnil. by destruct (given matching).
Qed.

End ToolResolution.

Section ToolCalls.
Import Schemas McpTools MoreWords.
Context `{!PythonStrings} `{!McpEnvironment}.

Ltac run_logged :=
  unfold try_catch, _resolve_mcp_tool, lift, invoke_or_empty, invoke,
    mbind, Logged_bind, mret, Logged_ret; cbn beta iota.

(** X12. A failing preferred tool ends the search: when Zoekt search is
    enabled, a "zoekt__" tool resolves and its invocation raises, the
    result is the error dict "Search failed: <e>" after that one
    invocation; neither the configured fallback tool nor a filesystem tool
    is tried. *)
Theorem zoekt_failure_does_not_fall_back state fallback_tool tools t e log :
  zoekt_enabled = true ->
  get_mcp_tools = Returns tools ->
  resolve_in tools None (Some "zoekt") (Some "search") = Some t ->
  ainvoke t [("query", PText (query state))] = Raises e ->
  _call_zoekt_tool state fallback_tool log
  = (Returns [("results", PList []); ("error", PText ("Search failed: " +:+ e))],
     log ++ [(name t, [("query", PText (query state))])]).
Proof.
  intros Hon Htools Hres Hinv. unfold _call_zoekt_tool. rewrite Hon. cbn [negb].
  run_logged. rewrite Htools, Hres. cbn beta iota. by rewrite Hinv.
Qed.

(** X13. The synthetic search result is used only when no real tool is
    reachable.  With Zoekt search enabled and the tools loaded, the result
    carries source "mock_fallback" exactly when no "zoekt__" tool, no
    fallback tool and no "filesystem__" tool resolves, and then it is the
    mock result for the query and no tool was invoked. *)
Theorem zoekt_mock_only_when_nothing_resolves state fallback_tool tools log :
  zoekt_enabled = true ->
  get_mcp_tools = Returns tools ->
  exists d log',
    _call_zoekt_tool state fallback_tool log = (Returns d, log')
    /\ (dict_get d "source" = Some (PText "mock_fallback")
        <-> resolve_in tools None (Some "zoekt") (Some "search") = None
            /\ fallback_unresolved tools fallback_tool
            /\ resolve_in tools None (Some "filesystem") (Some "search") = None)
    /\ (dict_get d "source" = Some (PText "mock_fallback") ->
        d = mock_search_result (query state) /\ log' = log).
Proof.
  intros Hon Htools. unfold _call_zoekt_tool, fallback_unresolved. rewrite Hon. cbn [negb].
  run_logged. rewrite Htools. cbn beta iota.
  destruct (resolve_in tools None (Some "zoekt") (Some "search")) as [t|].
  { destruct (ainvoke t _); eexists _, _; (split; [done|]); split; try done;
      split; try done; intros [? _]; done. }
  destruct (given fallback_tool) as [wanted|]; cbn beta iota.
  - cbn beta iota.
    destruct (resolve_in tools (Some wanted) None None) as [t|].
    { destruct (ainvoke t _); eexists _, _; (split; [done|]); split; try done;
        split; try done; intros (_ & ? & _); done. }
    cbn beta iota.
    destruct (resolve_in tools None (Some "filesystem") (Some "search")) as [t|].
    { destruct (ainvoke t _); eexists _, _; (split; [done|]); split; try done;
        split; try done; intros (_ & _ & ?); done. }
    eexists _, _. split; [done|]. split; done.
  - cbn beta iota.
    destruct (resolve_in tools None (Some "filesystem") (Some "search")) as [t|].
    { destruct (ainvoke t _); eexists _, _; (split; [done|]); split; try done;
        split; try done; intros (_ & _ & ?); done. }
    eexists _, _. split; [done|]. split; done.
Qed.

(** A tool found under a prefix is found under it for any other match
    word, the first prefixed tool standing in when none matches. *)
Lemma prefixed_tool_resolves tools pre m m' t :
  resolve_in tools None (Some pre) (Some m) = Some t ->
  exists t', resolve_in tools None (Some pre) (Some m') = Some t'.
Proof.
  unfold resolve_in. cbn [given]. destruct (bool_decide (pre = "")); [done|].
  destruct (filter (fun t0 => String.prefix (pre +:+ "__") (name t0) = true) tools)
    as [|t0 prefixed] eqn:Hpre.
  - by destruct (bool_decide (m = "")).
  - intros _. destruct (if bool_decide (m' = "") then _ else _);
      [destruct (first_tool _ _)|]; by eexists.
Qed.

(** X14. Git tool failures are swallowed.  With Git analysis enabled, a
    target file given and some "git__" tool resolving for the log, the
    history and then the blame are requested (two invocations, a blame tool
    always resolves once a log tool does) and the result is the "mcp_git"
    dict without an error entry whatever the two invocations do: a failed
    invocation just leaves its list empty. *)
Theorem git_invocation_errors_are_swallowed state fallback_tool tools log_tool file_path
    others log :
  git_enabled = true ->
  get_mcp_tools = Returns tools ->
  resolve_in tools None (Some "git") (Some "log") = Some log_tool ->
  target_files state = file_path :: others ->
  exists blame_tool history blame,
    resolve_in tools None (Some "git") (Some "blame") = Some blame_tool
    /\ _call_git_tool state fallback_tool log
       = (Returns [ ("history", history); ("blame", blame); ("source", PText "mcp_git");
                    ("total_commits", PInt (py_len history)) ],
          log ++ [ (name log_tool, [("path", PText file_path)]);
                   (name blame_tool, [("path", PText file_path)]) ])
    /\ history = match ainvoke log_tool [("path", PText file_path)] with
                 | Returns result => as_list result
                 | Raises _ => PList []
                 end
    /\ blame = match ainvoke blame_tool [("path", PText file_path)] with
               | Returns result => as_list result
               | Raises _ => PList []
               end.
Proof.
  intros Hon Htools Hlog Hfiles.
  destruct (prefixed_tool_resolves tools "git" "log" "blame" log_tool Hlog)
    as [blame_tool Hblame].
  exists blame_tool.
  unfold _call_git_tool. rewrite Hon. cbn [negb]. run_logged. run_logged.
  rewrite Htools, Hlog, Hfiles, Hblame. cbn beta iota.
  destruct (ainvoke log_tool _) as [r1|e1], (ainvoke blame_tool _) as [r2|e2];
    cbn beta iota; eexists _, _; (split; [done|]); rewrite <- app_assoc;
    (split; [done|]); done.
Qed.

(** X15. Without target files neither the LSP nor the Git analysis invokes
    any tool: with the analysis enabled and the tools loaded, each returns
    its "No target files provided" error dict, whatever tools exist and
    whatever fallback is configured. *)
Theorem no_target_files_no_invocation state fallback_tool tools log :
  get_mcp_tools = Returns tools ->
  target_files state = [] ->
  (lsp_enabled = true ->
   _call_lsp_tool state fallback_tool log = (Returns no_target_files_lsp, log))
  /\ (git_enabled = true ->
      _call_git_tool state fallback_tool log = (Returns no_target_files_git, log)).
Proof.
  intros Htools Hfiles. split; intros Hon.
  - unfold _call_lsp_tool. rewrite Hon. cbn [negb]. run_logged.
    rewrite Htools, Hfiles. cbn beta iota.
    destruct (resolve_in tools None (Some "lsp") (Some "symbol"));
      destruct (given fallback_tool); cbn beta iota;
      destruct (resolve_in tools None (Some "filesystem") (Some "read")); done.
  - unfold _call_git_tool. rewrite Hon. cbn [negb]. run_logged.
    rewrite Htools, Hfiles. cbn beta iota.
    destruct (resolve_in tools None (Some "git") (Some "log"));
      destruct (given fallback_tool); done.
Qed.

(** X16. The summarizing model is obtained before any tool is touched: when
    that fails, the context agent function still returns (it never raises),
    with the error-shaped reply of cost 0 and 0 tokens, and no tool has been
    invoked. *)
Theorem context_agent_without_llm context_type state e log :
  get_llm = Raises e ->
  async_context_agent_fn context_type state log
  = (Returns {| context_found :=
                  [ ("raw", PDict [ ("results", PList []); ("error", PText e);
                                    ("source", PText "error") ]);
                    ("error", PText e);
                    ("summary", PText ("Context gathering failed: " +:+ e)) ];
                cost := 0; tokens := 0 |},
     log).
Proof.
  intros Hllm. unfold async_context_agent_fn. run_logged. by rewrite Hllm.
Qed.

(** X17. A tool result that carries an "error" entry is not summarized by
    the model: the reply's summary is "Tool failed: <error>", with 50 tokens
    and the usual cost of 0.001 charged all the same; a result without one
    is summarized, with a token estimate of a quarter of the summary's
    length. *)
Theorem context_agent_reply context_type state d log log' :
  get_llm = Returns () ->
  call_tool context_type state log = (Returns (PDict d), log') ->
  async_context_agent_fn context_type state log
  = match dict_get d "error" with
    | Some error =>
      (Returns {| context_found :=
                    [ ("raw", PDict d);
                      ("summary", PText ("Tool failed: " +:+ format_value error)) ];
                  cost := 1 # 1000; tokens := 50 |}, log')
    | None =>
      match summarize (py_str (PDict d)) with
      | Returns summary_text =>
        (Returns {| context_found := [("raw", PDict d); ("summary", PText summary_text)];
                    cost := 1 # 1000;
                    tokens := Z.of_nat (String.length summary_text) `div` 4 |}, log')
      | Raises e =>
        (Returns {| context_found :=
                      [ ("raw", PDict [ ("results", PList []); ("error", PText e);
                                        ("source", PText "error") ]);
                        ("error", PText e);
                        ("summary", PText ("Context gathering failed: " +:+ e)) ];
                    cost := 0; tokens := 0 |}, log')
      end
    end.
Proof.
  intros Hllm Hcall. unfold async_context_agent_fn. run_logged.
  rewrite Hllm, Hcall. cbn [has_error get_error].
  assert (Hkey : bool_decide ("error" ∈ d.*1) = bool_decide (is_Some (dict_get d "error"))).
  { apply bool_decide_ext. unfold dict_get. rewrite fmap_is_Some. split.
    - intros Hin. apply list_elem_of_fmap in Hin as ([k v] & -> & Hin).
      destruct (head (filter (fun kv => kv.1 = (k, v).1) d)) eqn:Hh; [by eexists|].
      rewrite head_filter_None in Hh. destruct (Hh (k, v) Hin). done.
    - intros [kv Hh]. apply head_filter_Some in Hh as [Hin <-].
      apply list_elem_of_fmap. by exists kv. }
  rewrite Hkey. destruct (dict_get d "error") as [error|] eqn:Herr.
  - rewrite bool_decide_eq_true_2 by (by eexists). done.
  - rewrite bool_decide_eq_false_2 by (by intros [? ?]). cbn [negb].
    by destruct (summarize _).
Qed.

End ToolCalls.

(** ** Specialist subgraph: what a run keeps and how it ends *)

Section SubgraphRuns.
Import Schemas Prompts AgentFactory SpecWords MoreWords.
Context `{!ReasoningBackend} `{!ContextTools} `{!ExceptionText ValidationError}.

(** X18. A failing or malformed analysis ends the loop: when the backend
    call raises, its reply is not JSON, or the JSON has no
    needs_more_context entry, the analyze node adds no flag, so the
    conditional edge leads to finalize whatever the iteration counter; in
    the first two cases no finding is added either. *)
Theorem degraded_analysis_goes_to_finalize template st :
  let st' := merge_analyze st (_review_agent_analyze st) in
  ((exists e, analysis_reply st = LLMRaises e) \/ analysis_reply st = Unparseable ->
   after_analyze template st' = finalize /\ st_findings st' = st_findings st)
  /\ (forall a, analysis_reply st = Parsed a -> analysis_needs_more_context a = None ->
      after_analyze template st' = finalize).
Proof.
  cbv zeta. unfold _review_agent_analyze, after_analyze. split.
  - intros [[e ->]| ->]; cbn; by rewrite app_nil_r.
  - intros a -> Hnone. cbn. by rewrite Hnone.
Qed.

Lemma continues_refl s : continues s s.
Proof. unfold continues. repeat split; done. Qed.

Lemma continues_trans s1 s2 s3 : continues s1 s2 -> continues s2 s3 -> continues s1 s3.
Proof.
  intros (Ha & Hb & Hc & Hd & He) (Ha' & Hb' & Hc' & Hd' & He').
  unfold continues. repeat split; [congruence | by etrans | by etrans | by etrans | lia].
Qed.

Lemma step_continues template r r' :
  step template r = Returns r' -> continues (state r) (state r').
Proof.
  unfold step. destruct (node r).
  - intros [= <-]. cbn. unfold continues, _review_agent_plan. cbn.
    repeat split; try done; [by apply prefix_app_r|].
    destruct (plan_reply _); cbn; lia.
  - destruct (_spawn_context_agents _ _ _) as [g|e]; [|done]. intros [= <-]. cbn.
    unfold continues. cbn. repeat split; try done. by apply prefix_app_r.
  - intros [= <-]. cbn. unfold continues. cbn.
    repeat split; try done; by apply prefix_app_r.
  - destruct (_review_agent_finalize _ _) as [report|e]; [|done]. intros [= <-].
    unfold continues. cbn. repeat split; done.
  - intros [= <-]. apply continues_refl.
Qed.

(** X19. Nothing a specialist has accumulated is ever dropped or rewritten
    during a run: after any number of node executions the findings, the
    context records and the reasoning history of the state reached extend
    those of the starting state, the specialty is the same, and the
    iteration counter has not gone down. *)
Theorem run_only_accumulates template limit r visited r' :
  execute template limit r = (visited, Returns r') ->
  continues (state r) (state r').
Proof.
  revert r visited. induction limit as [|limit IH]; intros r visited; cbn [execute].
  - intros [= _ <-]. apply continues_refl.
  - destruct (decide (node r = END)); [intros [= _ <-]; apply continues_refl|].
    destruct (step template r) as [r1|e] eqn:Hstep; [|done].
    destruct (execute template limit r1) as [visited1 final] eqn:Hrun.
    intros [= _ ->]. eapply continues_trans; [by eapply step_continues | by eapply IH].
Qed.

Lemma make_ReviewAgentVerdict_fields v c s sp fs cg it more report :
  make_ReviewAgentVerdict v c s sp fs cg it more = Returns report ->
  specialty report = sp /\ iterations_used report = it /\ context_gathered report = cg.
Proof.
  unfold make_ReviewAgentVerdict. repeat case_match; try done. by intros [= <-].
Qed.

Lemma finalize_report_fields st template report :
  _review_agent_finalize st template = Returns report ->
  specialty report = st_specialty st
  /\ iterations_used report = st_current_iteration st
  /\ context_gathered report = st_context_gathered st.
Proof.
  unfold _review_agent_finalize.
  destruct (finalize_try st template) as [tried|e] eqn:Htry.
  - intros [= <-]. unfold finalize_try in Htry.
    destruct (high_severity_findings st) as [highs|]; [|done].
    destruct (medium_severity_findings st) as [mediums|]; [|done].
    cbn [mbind outcome_bind] in Htry.
    destruct (make_ReviewAgentVerdict _ _ _ _ _ _ _ _) as [built|] eqn:Hbuilt; [|done].
    injection Htry as <-. by eapply make_ReviewAgentVerdict_fields.
  - apply make_ReviewAgentVerdict_fields.
Qed.

(** X20. A run that reaches the end has gone through finalize last and
    leaves a final report in the state: the report is for the state's
    specialty, counts the state's iterations and carries all the context
    records gathered. *)
Theorem finished_run_has_report template limit r visited r' :
  node r <> END ->
  execute template limit r = (visited, Returns r') ->
  node r' = END ->
  last visited = Some finalize
  /\ exists report,
       st_final_report (state r') = Some report
       /\ specialty report = st_specialty (state r')
       /\ iterations_used report = st_current_iteration (state r')
       /\ context_gathered report = st_context_gathered (state r').
Proof.
  revert r visited. induction limit as [|limit IH]; intros r visited Hnode; cbn [execute].
  - intros [= _ <-] Hend. done.
  - destruct (decide (node r = END)); [done|].
    destruct (step template r) as [r1|e] eqn:Hstep; [|done].
    destruct (execute template limit r1) as [visited1 final] eqn:Hrun.
    intros [= <- ->] Hend.
    destruct (decide (node r1 = END)) as [Hend1|Hgo].
    + rewrite execute_at_END in Hrun by done. injection Hrun as <- <-.
      unfold step in Hstep. destruct (node r) eqn:Hn.
      * by injection Hstep as <-.
      * destruct (_spawn_context_agents _ _ _); [|done]. by injection Hstep as <-.
      * injection Hstep as <-. cbn in Hend1. unfold after_analyze in Hend1.
        by destruct (st_needs_more_context _ && _).
      * destruct (_review_agent_finalize (state r) template) as [report|] eqn:Hfin;
          [|done].
        injection Hstep as <-. split; [done|]. exists report. cbn.
        split; [done|]. by apply finalize_report_fields in Hfin.
      * done.
    + destruct (IH r1 visited1 Hgo Hrun Hend) as [Hlast Hreport].
      split; [|done]. destruct visited1; [done|]. done.
Qed.

(** X21. When the analysis does not ask for more context, a run that ends
    without an exception is one pass, for every specialty and template: the
    nodes executed are plan, spawn_context, analyze and finalize, the run has
    reached the end within four node executions, and the iteration counter
    is 2. *)
Theorem quiet_analysis_single_pass template agent w n visited r' :
  (forall st, au_needs_more_context (_review_agent_analyze st) = false) ->
  execute template (4 + n) (start agent w) = (visited, Returns r') ->
  visited = [plan; spawn_context; analyze; finalize]
  /\ node r' = END
  /\ st_current_iteration (state r') = 2.
Proof.
  intros Hquiet.
  set (s1 := merge_plan (initial_agent_state agent)
               (_review_agent_plan (initial_agent_state agent))).
  assert (Hit1 : st_current_iteration s1 = 2).
  { subst s1. unfold _review_agent_plan. by destruct (plan_reply _). }
  change (4 + n)%nat with (S (S (S (S n)))). cbn [execute].
  destruct (decide (node (start agent w) = END)) as [|_]; [done|].
  assert (step template (start agent w)
          = Returns {| node := spawn_context; state := s1; outside := w |})
    as -> by done.
  destruct (decide (spawn_context = END)) as [|_]; [done|].
  destruct (step template {| node := spawn_context; state := s1; outside := w |})
    as [r2|e] eqn:Hspawn; [|by intros [= _ ?]].
  unfold step in Hspawn. cbn [node state outside] in Hspawn.
  destruct (_spawn_context_agents false (spawn_view s1) w) as [g|e]; [|done].
  injection Hspawn as <-. cbn [node].
  destruct (decide (analyze = END)) as [|_]; [done|].
  set (s2 := merge_spawn s1 g).
  set (s3 := merge_analyze s2 (_review_agent_analyze s2)).
  assert (Hroute : after_analyze template s3 = finalize).
  { unfold after_analyze. subst s3. cbn. by rewrite Hquiet. }
  assert (step template {| node := analyze; state := s2; outside := world g |}
          = Returns {| node := finalize; state := s3; outside := world g |}) as ->.
  { unfold step. cbn [node state outside]. fold s3. by rewrite Hroute. }
  cbn [node].
  destruct (decide (finalize = END)) as [|_]; [done|].
  destruct (step template {| node := finalize; state := s3; outside := world g |})
    as [r4|e] eqn:Hfinal; [|by intros [= _ ?]].
  unfold step in Hfinal. cbn [node state outside] in Hfinal.
  destruct (_review_agent_finalize s3 template) as [report|e]; [|done].
  injection Hfinal as <-.
  rewrite execute_at_END by done. intros [= <- <-]. done.
Qed.

End SubgraphRuns.

(** ** spawn_context: records and invocations *)

Section SpawnRecords.
Import Schemas Prompts AgentFactory SpecWords.
Context `{!ContextTools}.

Lemma resolve_request_adds_one fail_fast iter g req g' :
  resolve_request fail_fast iter g req = Returns g' ->
  length (gathered g') = S (length (gathered g))
  /\ exists suffix,
       tool_invocations (world g') = tool_invocations (world g) ++ suffix
       /\ (length suffix <= 1)%nat.
Proof.
  unfold resolve_request.
  destruct (cache g ≫= _) as [hit|].
  { intros [= <-]. cbn. rewrite length_app. cbn. split; [lia|].
    exists []. rewrite app_nil_r. split; [done | cbn; lia]. }
  destruct (redis_lookup _ _) as [cached|].
  { intros [= <-]. cbn. rewrite length_app. cbn. split; [lia|].
    exists []. rewrite app_nil_r. split; [done | cbn; lia]. }
  unfold invoke_and_cache. destruct (context_agent _ _ _) as [answer|e].
  - cbn [log_invocation redis_client clock].
    destruct (redis_client (world g)) as [r|].
    + destruct (redis_setex _ _ _ _ _) as [r'|]; intros [= <-]; cbn;
        rewrite length_app; cbn; (split; [lia|]); eexists; (split; [done|]); cbn; lia.
    + intros [= <-]. cbn. rewrite length_app. cbn. split; [lia|].
      eexists; (split; [done|]); cbn; lia.
  - destruct fail_fast; [done|]. intros [= <-]. cbn. rewrite length_app. cbn.
    split; [lia|]. eexists; (split; [done|]); cbn; lia.
Qed.

Lemma resolve_all_counts fail_fast iter reqs g g' :
  resolve_all fail_fast iter g reqs = Returns g' ->
  length (gathered g') = (length (gathered g) + length reqs)%nat
  /\ exists suffix,
       tool_invocations (world g') = tool_invocations (world g) ++ suffix
       /\ (length suffix <= length reqs)%nat.
Proof.
  revert g. induction reqs as [|req reqs IH]; intros g; cbn [resolve_all].
  - intros [= <-]. split; [cbn; lia|]. exists []. rewrite app_nil_r. split; [done | cbn; lia].
  - destruct (resolve_request fail_fast iter g req) as [g1|e] eqn:Hone; [|done].
    cbn. intros Hrest.
    destruct (resolve_request_adds_one _ _ _ _ _ Hone) as (Hlen1 & s1 & Hlog1 & Hs1).
    destruct (IH g1 Hrest) as (Hlen & s2 & Hlog & Hs2).
    split; [lia|]. exists (s1 ++ s2). rewrite Hlog, Hlog1, <- app_assoc.
    split; [done|]. rewrite length_app. lia.
Qed.

(** X22. Whenever spawn_context returns, it has produced one context record
    per request (cache hits and recorded failures included) and has invoked
    the context agent at most once per request, only appending to the
    invocation log. *)
Theorem spawn_context_one_record_per_request fail_fast state w g :
  _spawn_context_agents fail_fast state w = Returns g ->
  length (gathered g) = length (context_requests_this_iteration state)
  /\ exists invoked,
       tool_invocations (world g) = tool_invocations w ++ invoked
       /\ (length invoked <= length (context_requests_this_iteration state))%nat.
Proof. intros Hg. apply resolve_all_counts in Hg. cbn in Hg. done. Qed.

End SpawnRecords.

(** ** Orchestrator: metadata, and the edges up to collect *)

Section Pipeline.
Import Schemas Orchestrator OrchestratorGraph SpecWords MoreWords.
Context `{!AgentRuntime}.

Lemma specialty_name_inj a b : specialty_name a = specialty_name b -> a = b.
Proof. destruct a, b; cbn; congruence. Qed.

Lemma metadata_key_inj a b : metadata_key a = metadata_key b -> a = b.
Proof.
  unfold metadata_key. intros Heq. apply specialty_name_inj.
  by apply (inj (String.app "agent_")) in Heq.
Qed.

Lemma run_single_agent_name agent state :
  agent_name (_run_single_agent agent state) = agent.
Proof. unfold _run_single_agent. by destruct (run_subgraph agent state). Qed.

Lemma foldl_process_result_metadata_other results acc key :
  (forall r, r ∈ results -> key <> metadata_key (agent_name r)) ->
  upd_orchestration_metadata (foldl process_result acc results) !! key
  = upd_orchestration_metadata acc !! key.
Proof.
  revert acc. induction results as [|r results IH]; intros acc Hkey; [done|].
  cbn [foldl]. rewrite IH.
  - cbn. rewrite lookup_insert_ne; [done|]. symmetry. apply Hkey. left.
  - intros r' Hr'. apply Hkey. by right.
Qed.

Lemma foldl_process_result_metadata_last results acc r :
  r ∈ results ->
  (forall r', r' ∈ results -> agent_name r' = agent_name r -> r' = r) ->
  upd_orchestration_metadata (foldl process_result acc results)
    !! metadata_key (agent_name r)
  = Some {| meta_status := status r; meta_duration_ms := (agent_duration r * 1000)%Q;
            meta_error := error r |}.
Proof.
  revert acc. induction results as [|r0 results IH]; intros acc Hin Hsame.
  - by apply elem_of_nil in Hin.
  - cbn [foldl].
    destruct (decide (Exists (fun r' => agent_name r' = agent_name r) results))
      as [Hlater|Hnot].
    + apply IH.
      * apply Exists_exists in Hlater as (r' & Hr' & Hname).
        rewrite <- (Hsame r'); [done | by right | done].
      * intros r' Hr'. apply Hsame. by right.
    + assert (r0 = r) as ->.
      { apply elem_of_cons in Hin as [->|Hin]; [done|].
        destruct Hnot. apply Exists_exists. by exists r. }
      rewrite foldl_process_result_metadata_other.
      * cbn. fold (metadata_key (agent_name r)). by rewrite lookup_insert_eq.
      * intros r' Hr' Heq. apply metadata_key_inj in Heq.
        apply Hnot. apply Exists_exists. by exists r'.
Qed.

(** X24. The metadata [run_review_agents] returns: every planned specialist
    has an entry under "agent_<name>" holding its duration in milliseconds
    and status "success" with no error when its run came back, status
    "error" with error "Timeout" when it timed out, status "error" with the
    exception text when it raised; every other key holds what
    [orchestration_metadata] held before. *)
Theorem run_review_agents_metadata state :
  let metadata := upd_orchestration_metadata (run_review_agents state) in
  (forall agent, agent ∈ default [] (orchestrator_plan state) ->
     exists m, metadata !! metadata_key agent = Some m
       /\ meta_duration_ms m = (duration agent * 1000)%Q
       /\ match run_subgraph agent state with
          | Completed _ => meta_status m = "success" /\ meta_error m = None
          | TimedOut => meta_status m = "error" /\ meta_error m = Some "Timeout"
          | Failed e => meta_status m = "error" /\ meta_error m = Some e
          end)
  /\ (forall key,
        (forall agent, agent ∈ default [] (orchestrator_plan state) ->
           key <> metadata_key agent) ->
        metadata !! key = orchestration_metadata state !! key).
Proof.
  cbn zeta. unfold run_review_agents. split.
  - intros agent Hin.
    pose proof (foldl_process_result_metadata_last
      (map (fun agent => _run_single_agent agent state)
           (default [] (orchestrator_plan state)))
      {| upd_review_agent_reports := []; upd_agent_execution_times := ∅;
         upd_orchestration_metadata := orchestration_metadata state |}
      (_run_single_agent agent state)) as Hlast.
    rewrite run_single_agent_name in Hlast. rewrite Hlast.
    + eexists. split; [done|]. unfold _run_single_agent.
      destruct (run_subgraph agent state); cbn; done.
    + apply list_elem_of_fmap. by exists agent.
    + intros r' Hr' Hname. apply list_elem_of_fmap in Hr' as (agent' & -> & _).
      rewrite run_single_agent_name in Hname. by subst.
  - intros key Hkey. rewrite foldl_process_result_metadata_other; [done|].
    intros r Hr. apply list_elem_of_fmap in Hr as (agent & -> & Hin).
    rewrite run_single_agent_name. by apply Hkey.
Qed.

Lemma review_and_collect_reports state :
  review_agent_reports (review_and_collect state).1
  = review_agent_reports state
    ++ map (fun agent =>
              report (_run_single_agent agent (with_plan state (plan_agents state))))
           (plan_agents state).
Proof.
  unfold review_and_collect. cbn [fst with_reviews review_agent_reports].
  rewrite run_review_agents_reports. done.
Qed.

Lemma collect_aggregate state :
  upd_memory (collect state) !! "aggregated_report"
  = Some (Aggregate
      {| total_agents := len (review_agent_reports state);
         agent_types := map specialty (review_agent_reports state);
         overall_verdict := _determine_overall_verdict (review_agent_reports state);
         report_summary :=
           "Completed review with " +:+ str_of_int (len (review_agent_reports state))
           +:+ " agents" |}).
Proof. unfold collect. cbn [upd_memory]. by rewrite lookup_insert_eq. Qed.

Lemma overall_verdict_attention reports r :
  r ∈ reports -> needs_attention r -> _determine_overall_verdict reports = "NEEDS_WORK".
Proof.
  intros Hin Hr. destruct reports as [|r0 reports]; [by apply elem_of_nil in Hin|].
  unfold _determine_overall_verdict.
  destruct (any_needs_work_cases (r0 :: reports)) as [[-> _]|[_ Hall]]; [done|].
  rewrite Forall_forall in Hall. apply Hall in Hin.
  apply not_needs_attention in Hin. done.
Qed.

(** X25. From plan_agents to collect: the aggregate stored under
    "aggregated_report" counts the reports the state already held plus
    three, its overall verdict is PASS or NEEDS_WORK (never NO_REVIEW), and
    every other key of the repository memory keeps its value. *)
Theorem review_and_collect_aggregate state :
  exists a,
    upd_memory (review_and_collect state).2 !! "aggregated_report" = Some (Aggregate a)
    /\ total_agents a = len (review_agent_reports state) + 3
    /\ (overall_verdict a = "PASS" \/ overall_verdict a = "NEEDS_WORK")
    /\ forall key, key <> "aggregated_report" ->
         upd_memory (review_and_collect state).2 !! key
         = Kept <$> repo_memory state !! key.
Proof.
  pose proof (collect_aggregate (review_and_collect state).1) as Hagg.
  change (collect (review_and_collect state).1) with (review_and_collect state).2 in Hagg.
  eexists. split; [exact Hagg|]. cbn [total_agents overall_verdict].
  rewrite review_and_collect_reports. repeat split.
  - unfold len. rewrite length_app, length_map. cbn. lia.
  - unfold _determine_overall_verdict.
    destruct (review_agent_reports state ++ _) as [|r rest] eqn:Hall.
    + apply app_eq_nil in Hall as [_ Hnil]. done.
    + destruct (any_needs_work_cases (r :: rest)) as [[-> _]|[-> _]]; auto.
  - intros key Hkey. unfold review_and_collect, collect.
    cbn [snd upd_memory with_reviews with_plan repo_memory].
    rewrite lookup_insert_ne by done. by rewrite lookup_fmap.
Qed.

Lemma stored_overall_verdict state a :
  upd_memory (review_and_collect state).2 !! "aggregated_report" = Some (Aggregate a) ->
  overall_verdict a
  = _determine_overall_verdict (review_agent_reports (review_and_collect state).1).
Proof.
  intros Ha.
  pose proof (collect_aggregate (review_and_collect state).1) as Hagg.
  change (collect (review_and_collect state).1) with (review_and_collect state).2 in Hagg.
  rewrite Ha in Hagg. by injection Hagg as ->.
Qed.

(** X26. One degraded specialist decides the outcome: when the run of any
    of the planned specialists times out or raises, the overall verdict that
    collect stores is NEEDS_WORK, whatever the other specialists report. *)
Theorem degraded_specialist_forces_needs_work state agent a :
  agent ∈ plan_agents state ->
  (forall result,
     run_subgraph agent (with_plan state (plan_agents state)) <> Completed result) ->
  upd_memory (review_and_collect state).2 !! "aggregated_report" = Some (Aggregate a) ->
  overall_verdict a = "NEEDS_WORK".
Proof.
  intros Hin Hrun Ha.
  rewrite (stored_overall_verdict state a Ha).
  apply (overall_verdict_attention _
    (report (_run_single_agent agent (with_plan state (plan_agents state))))).
  - rewrite review_and_collect_reports. apply elem_of_app. right.
    apply list_elem_of_fmap. by exists agent.
  - unfold _run_single_agent, needs_attention.
    destruct (run_subgraph agent _) as [result| |e]; cbn.
    + by destruct (Hrun result).
    + auto.
    + auto.
Qed.

(** X27. Silence counts as approval: when the state holds no earlier
    reports and every planned specialist's run comes back without a final
    report, each gets a PASS report of confidence 0.5 and the overall verdict
    that collect stores is PASS. *)
Theorem reportless_specialists_pass state a :
  review_agent_reports state = [] ->
  (forall agent, agent ∈ plan_agents state ->
     reportless (run_subgraph agent (with_plan state (plan_agents state)))) ->
  upd_memory (review_and_collect state).2 !! "aggregated_report" = Some (Aggregate a) ->
  overall_verdict a = "PASS"
  /\ Forall (fun r => verdict r = PASS /\ confidence r = 5 # 10 /\ findings r = [])
       (review_agent_reports (review_and_collect state).1).
Proof.
  intros Hnone Hquiet Ha.
  rewrite (stored_overall_verdict state a Ha).
  rewrite review_and_collect_reports, Hnone. cbn [app].
  assert (Forall (fun r => verdict r = PASS /\ confidence r = 5 # 10 /\ findings r = [])
            (map (fun agent =>
                    report (_run_single_agent agent (with_plan state (plan_agents state))))
                 (plan_agents state))) as Hall.
  { apply Forall_fmap, Forall_forall. intros agent Hin. specialize (Hquiet agent Hin).
    unfold _run_single_agent, report_of_result. cbn.
    destruct (run_subgraph agent _) as [[[fr|]|[[fr|]|]|]| |]; cbn in *; done. }
  split; [|done].
  unfold plan_agents in *. cbn [map] in *.
  unfold _determine_overall_verdict.
  match goal with |- any_needs_work ?l = _ =>
    destruct (any_needs_work_cases l) as [[_ Hex]|[-> _]]; [|done] end.
  exfalso. apply Exists_exists in Hex as (r & Hin & Hr).
  rewrite Forall_forall in Hall. destruct (Hall r Hin) as (Hpass & _).
  by apply not_needs_attention in Hr.
Qed.

End Pipeline.

(** ** The properties above on concrete inputs *)

Section QueueWitnesses.
Import WorkflowQueue WorkflowWaiting WorkflowAgent MoreWords MoreExamples.
#[local] Existing Instance codec_library.
#[local] Existing Instance ci_handlers.

Ltac computed := vm_compute; first [reflexivity | discriminate | exact I].
Ltac polls := repeat first [apply List.Forall_nil | apply List.Forall_cons; [computed|]].

(** A failure reported for an id the store has never seen. *)
Lemma mark_on_missing_record_witness :
  get_request_status (mark_failed Examples.empty_redis "gone" "runner lost" 1700000090) "gone"
  = Returns (Some "failed")
  /\ ttl (mark_failed Examples.empty_redis "gone" "runner lost" 1700000090) = ∅.
Proof.
  destruct (mark_on_missing_record Examples.empty_redis "gone"
              (MarkFailed "runner lost" 1700000090) eq_refl)
    as (_ & Httl & _ & Hstatus).
  exact (conj Hstatus Httl).
Defined.

(** A waiter that polls four times: pending, in progress, completed, and a
    store that has lost everything since. *)
Lemma wait_for_result_completed_witness :
  wait_for_result [queued_store; running_store; completed_store; Examples.empty_redis]
    ci_id None
  = Returns success_result.
Proof.
  exact (@wait_for_result_completed codec_library [queued_store; running_store] running_store
           [Examples.empty_redis] ci_id success_result 1700000090 None
           ltac:(computed)
           ltac:(polls)
           ltac:(computed)).
Defined.

(** A waiter that finds the request failed at its second poll. *)
Lemma wait_for_result_raises_witness :
  wait_for_result
    [queued_store; mark_failed running_store ci_id "runner lost" 1700000090] ci_id (Some 30)
  = Raises (PlainException ("Workflow request failed: "
                            +:+ json_dumps false [("error", JStr "runner lost")])).
Proof.
  assert (Htime : 0 < default _timeout (Some 30)) by computed.
  assert (Hwaiting : Forall (fun o => check_result o ci_id = Returns None) [queued_store]).
  { polls. }
  destruct (wait_for_result_raises [queued_store] running_store [] ci_id (Some 30)
              Htime Hwaiting) as [Hfailed _].
  exact (Hfailed "runner lost" 1700000090).
Defined.

(** With timeout 0 the completed result is not even looked at. *)
Lemma wait_for_result_times_out_witness :
  wait_for_result [completed_store] ci_id (Some 0)
  = Raises (TimeoutError ("Workflow request " +:+ ci_id +:+ " timed out after "
                          +:+ str_of_int 0 +:+ " seconds")).
Proof.
  assert (Hzero : default _timeout (Some 0) <= 0) by computed.
  pose proof (wait_for_result_times_out [completed_store] ci_id (Some 0) Hzero) as Hout.
  change (default _timeout (Some 0)) with 0 in Hout. exact Hout.
Defined.

(** The record with the overwritten timestamp costs the worker one turn. *)
Lemma poisoned_record_is_skipped_witness :
  process_once 1700000090 poisoned_store
  = (LoopError ValueError,
     {| hashes := hashes poisoned_store; queue := []; ttl := ttl poisoned_store |})
  /\ get_request_status (process_once 1700000090 poisoned_store).2 ci_id
     = Returns (Some "pending").
Proof.
  assert (Hpop : pop_right (queue poisoned_store) = Some (ci_id, [])) by computed.
  assert (Hid : ci_id <> "") by computed.
  assert (Hrecord : hgetall poisoned_store (_get_request_key ci_id) <> ∅).
  { apply (bool_decide_unpack _). computed. }
  assert (Hparse : parse_request (hgetall poisoned_store (_get_request_key ci_id))
                   = Raises ValueError) by computed.
  assert (Hkind : ValueError ∈ [ValueError; AttributeError; ValidationError])
    by constructor.
  destruct (poisoned_record_is_skipped 1700000090 poisoned_store ci_id [] ValueError
              Hpop Hid Hrecord Hparse Hkind) as [Hturn Hstatus].
  split; [exact Hturn|]. rewrite Hstatus. computed.
Defined.

End QueueWitnesses.

Section ToolWitnesses.
Import Schemas McpTools MoreWords MoreExamples.
#[local] Existing Instance ascii_strings.

Ltac computed := vm_compute; first [reflexivity | discriminate | exact I].

(** The Zoekt server refuses the connection: one invocation, no fallback. *)
Lemma zoekt_failure_does_not_fall_back_witness :
  @_call_zoekt_tool _ tools_environment login_question (Some "filesystem__search_files") []
  = (Returns [("results", PList []);
              ("error", PText ("Search failed: " +:+ "connection refused"))],
     [] ++ [("zoekt__search", [("query", PText "login flow")])]).
Proof.
  exact (@zoekt_failure_does_not_fall_back ascii_strings tools_environment login_question
           (Some "filesystem__search_files") served_tools zoekt_search_tool
           "connection refused" [] eq_refl eq_refl ltac:(computed) ltac:(computed)).
Defined.

(** Without any MCP server the search result is the synthetic one. *)
Lemma zoekt_mock_only_when_nothing_resolves_witness :
  @_call_zoekt_tool _ bare_environment login_question (Some "filesystem__search_files") []
  = (Returns (mock_search_result "login flow"), []).
Proof.
  destruct (@zoekt_mock_only_when_nothing_resolves ascii_strings bare_environment
              login_question (Some "filesystem__search_files") [] [] eq_refl eq_refl)
    as (d & log' & Hcall & Hiff & Hmock).
  assert (Hsource : dict_get d "source" = Some (PText "mock_fallback")).
  { apply Hiff. repeat split; computed. }
  destruct (Hmock Hsource) as [-> ->]. exact Hcall.
Defined.

(** The log is read, blame fails and is swallowed. *)
Lemma git_invocation_errors_are_swallowed_witness :
  @_call_git_tool _ tools_environment login_question None []
  = (Returns [ ("history", PList [PText "abc123 Fix login"]); ("blame", PList []);
               ("source", PText "mcp_git"); ("total_commits", PInt 1) ],
     [ ("git__git_log", [("path", PText "src/auth.py")]);
       ("git__git_blame", [("path", PText "src/auth.py")]) ]).
Proof.
  destruct (@git_invocation_errors_are_swallowed ascii_strings tools_environment
              login_question None served_tools git_log_tool "src/auth.py" [] []
              eq_refl eq_refl ltac:(computed) eq_refl)
    as (blame_tool & history & blame & Hblame & Hcall & -> & ->).
  vm_compute in Hblame. injection Hblame as <-. rewrite Hcall. computed.
Defined.

(** No target files: neither analysis invokes a tool. *)
Lemma no_target_files_no_invocation_witness :
  @_call_lsp_tool _ tools_environment question_without_files (Some "filesystem__read_file") []
  = (Returns no_target_files_lsp, [])
  /\ @_call_git_tool _ tools_environment question_without_files None []
     = (Returns no_target_files_git, []).
Proof.
  destruct (@no_target_files_no_invocation ascii_strings tools_environment
              question_without_files (Some "filesystem__read_file") served_tools []
              eq_refl eq_refl) as [Hlsp _].
  destruct (@no_target_files_no_invocation ascii_strings tools_environment
              question_without_files None served_tools [] eq_refl eq_refl) as [_ Hgit].
  exact (conj (Hlsp eq_refl) (Hgit eq_refl)).
Defined.

(** No usable model: the error-shaped reply, nothing invoked. *)
Lemma context_agent_without_llm_witness :
  @async_context_agent_fn _ no_llm_environment git_history login_question []
  = (Returns {| context_found :=
                  [ ("raw", PDict [ ("results", PList []);
                                    ("error", PText "no API key configured");
                                    ("source", PText "error") ]);
                    ("error", PText "no API key configured");
                    ("summary", PText ("Context gathering failed: "
                                       +:+ "no API key configured")) ];
                cost := 0; tokens := 0 |},
     []).
Proof.
  exact (@context_agent_without_llm ascii_strings no_llm_environment git_history
           login_question "no API key configured" [] eq_refl).
Defined.

(** The failed Zoekt search is reported, not summarized. *)
Lemma context_agent_reply_witness :
  @async_context_agent_fn _ tools_environment zoekt_search login_question []
  = (Returns {| context_found :=
                  [ ("raw", PDict [ ("results", PList []);
                                    ("error", PText "Search failed: connection refused") ]);
                    ("summary", PText "Tool failed: Search failed: connection refused") ];
                cost := 1 # 1000; tokens := 50 |},
     [("zoekt__search", [("query", PText "login flow")])]).
Proof.
  pose proof (@context_agent_reply ascii_strings tools_environment zoekt_search
                login_question
                [("results", PList []);
                 ("error", PText "Search failed: connection refused")]
                [] [("zoekt__search", [("query", PText "login flow")])]
                eq_refl ltac:(computed)) as Hreply.
  rewrite Hreply. computed.
Defined.

End ToolWitnesses.

Section RunWitnesses.
Import Schemas Prompts AgentFactory Orchestrator OrchestratorGraph SpecWords MoreWords.
Import Examples MoreExamples.

Ltac computed := vm_compute; first [reflexivity | discriminate | exact I].

(** Seven node executions of the alignment specialist with the insatiable
    backend. *)
Lemma run_only_accumulates_witness :
  exists visited r',
    execute (REVIEW_AGENT_TEMPLATES alignment) 7 (start alignment offline_world)
    = (visited, Returns r')
    /\ continues (state (start alignment offline_world)) (state r').
Proof.
  destruct (execute (REVIEW_AGENT_TEMPLATES alignment) 7 (start alignment offline_world))
    as [visited [r'|e]] eqn:Hrun.
  - exists visited, r'. split; [reflexivity|].
    exact (run_only_accumulates (REVIEW_AGENT_TEMPLATES alignment) 7
             (start alignment offline_world) visited r' Hrun).
  - vm_compute in Hrun. discriminate.
Defined.

(** The security specialist's run, which ends after one pass. *)
Lemma finished_run_has_report_witness :
  exists visited r',
    execute (REVIEW_AGENT_TEMPLATES security) 6 (start security offline_world)
    = (visited, Returns r')
    /\ last visited = Some finalize
    /\ exists report,
         st_final_report (state r') = Some report
         /\ specialty report = security
         /\ iterations_used report = 2.
Proof.
  assert (exists visited r',
            execute (REVIEW_AGENT_TEMPLATES security) 6 (start security offline_world)
            = (visited, Returns r')
            /\ node r' = END
            /\ st_specialty (state r') = security
            /\ st_current_iteration (state r') = 2) as (visited & r' & Hrun & Hend & Hs & Hi).
  { eexists _, _. split; [vm_compute; reflexivity|]. repeat split; computed. }
  assert (Hstart : node (start security offline_world) <> END) by discriminate.
  destruct (finished_run_has_report (REVIEW_AGENT_TEMPLATES security) 6
              (start security offline_world) visited r' Hstart Hrun Hend)
    as (Hlast & report & Hreport & Hspecialty & Hiterations & _).
  exists visited, r'. split; [exact Hrun|]. split; [exact Hlast|].
  exists report. rewrite Hspecialty, Hiterations. auto.
Defined.

(** The testing specialist with the quiet backend. *)
Lemma quiet_analysis_single_pass_witness :
  exists r',
    @execute quiet_backend answering_tools validation_error_text
      (REVIEW_AGENT_TEMPLATES testing) (4 + 0) (start testing offline_world)
    = ([plan; spawn_context; analyze; finalize], Returns r')
    /\ node r' = END
    /\ st_current_iteration (state r') = 2.
Proof.
  destruct (@execute quiet_backend answering_tools validation_error_text
              (REVIEW_AGENT_TEMPLATES testing) (4 + 0) (start testing offline_world))
    as [visited [r'|e]] eqn:Hrun.
  - destruct (@quiet_analysis_single_pass quiet_backend answering_tools
                validation_error_text (REVIEW_AGENT_TEMPLATES testing) testing
                offline_world 0%nat visited r' (fun _ => eq_refl) Hrun)
      as (-> & Hend & Hiteration).
    exists r'. exact (conj eq_refl (conj Hend Hiteration)).
  - vm_compute in Hrun. discriminate.
Defined.

(** One request, an unreachable server, no fail-fast: the failure is
    recorded and the call returns. *)
Lemma spawn_context_one_record_per_request_witness :
  exists g,
    @_spawn_context_agents unreachable_tools false history_wanted offline_world = Returns g
    /\ length (gathered g) = 1%nat
    /\ exists invoked,
         tool_invocations (world g) = tool_invocations offline_world ++ invoked
         /\ (length invoked <= 1)%nat.
Proof.
  destruct (@_spawn_context_agents unreachable_tools false history_wanted offline_world)
    as [g|e] eqn:Hspawn.
  - exists g. split; [reflexivity|].
    exact (@spawn_context_one_record_per_request unreachable_tools false history_wanted
             offline_world g Hspawn).
  - vm_compute in Hspawn. discriminate.
Defined.

(** The security specialist times out: the review needs work. *)
Lemma degraded_specialist_forces_needs_work_witness :
  exists a,
    upd_memory (@review_and_collect flaky_runtime blank_state).2 !! "aggregated_report"
    = Some (Aggregate a)
    /\ overall_verdict a = "NEEDS_WORK".
Proof.
  pose proof (collect_aggregate (@review_and_collect flaky_runtime blank_state).1) as Hstored.
  eexists. split; [exact Hstored|].
  assert (Hplanned : security ∈ plan_agents blank_state) by (repeat constructor).
  assert (Hout : forall result,
            @run_subgraph flaky_runtime security
              (with_plan blank_state (plan_agents blank_state)) <> Completed result)
    by (intros result; discriminate).
  exact (@degraded_specialist_forces_needs_work flaky_runtime blank_state security _
           Hplanned Hout Hstored).
Defined.

(** Three specialists without a report: the review passes. *)
Lemma reportless_specialists_pass_witness :
  exists a,
    upd_memory (@review_and_collect silent_runtime blank_state).2 !! "aggregated_report"
    = Some (Aggregate a)
    /\ overall_verdict a = "PASS".
Proof.
  pose proof (collect_aggregate (@review_and_collect silent_runtime blank_state).1)
    as Hstored.
  eexists. split; [exact Hstored|].
  exact (proj1 (@reportless_specialists_pass silent_runtime blank_state _ eq_refl
                  (fun _ _ => I) Hstored)).
Defined.

End RunWitnesses.
